(** * gpiod: the request/lifecycle manager of the GPIO character device client

    A shallow embedding of [gpiod.go]: the chip handle, the line requests and
    their value, configuration and close operations, and the searches for
    chips and for lines by name.  The kernel and the
    operating system are the environment: every ioctl and system call the Go
    code issues is an event [Call R] answered by an arbitrary step function
    of an arbitrary kernel state, and recorded in a trace.  Go's [int],
    [uintptr] and the fixed-width fields are [Z]; slices are lists; a Go
    [error] is an [option Error] with [None] for [nil]; a run-time panic
    (index out of range, write to a nil map) is the [None] outcome of the
    monad [M]. *)

From stdpp Require Import gmap strings list pretty.
From Stdlib Require Import ZArith.

Local Open Scope Z_scope.

(** ** Errors *)

(** The package's error values (the [var] block that ends gpiod.go), and the
    error numbers of the [unix] package. *)
Inductive Error : Set :=
| ErrClosed
| ErrInvalidOffset
| ErrNotCharacterDevice
| ErrLineNotFound
| ErrPermissionDenied
| Errno (e : Z).

Definition error : Set := option Error.

Module unix.
Definition EINVAL : Error := Errno 22.
End unix.

(** ** The kernel ABI structures used by gpiod.go *)

Module uapi.

(** Modelled from the spec: the [uapi] package is not part of the sources at
    hand.  Its types are reconstructed from the way gpiod.go uses them, its
    numeric constants from the kernel header the spec (section 6) says they
    match.  The first constructor of each enumeration is its Go zero value:
    gpiod.go relies on it when it tests [EdgeDetection != 0], and when it
    asks [HasDirection] or [HasBias] to tell a zero field from an absent
    one. *)
Inductive LineDirection : Set := LineDirectionInput | LineDirectionOutput.
Inductive LineDrive : Set :=
  LineDrivePushPull | LineDriveOpenDrain | LineDriveOpenSource.
Inductive LineBias : Set :=
  LineBiasDisabled | LineBiasPullUp | LineBiasPullDown.
Inductive LineEdge : Set :=
  LineEdgeNone | LineEdgeRising | LineEdgeFalling | LineEdgeBoth.

#[global] Instance LineDirection_eq_dec : EqDecision LineDirection.
Proof. solve_decision. Defined.
#[global] Instance LineDrive_eq_dec : EqDecision LineDrive.
Proof. solve_decision. Defined.
#[global] Instance LineBias_eq_dec : EqDecision LineBias.
Proof. solve_decision. Defined.
#[global] Instance LineEdge_eq_dec : EqDecision LineEdge.
Proof. solve_decision. Defined.

(** The largest number of lines one request can hold: the length of the
    fixed arrays of the request structures. *)
Definition HandlesMax : nat := 64.
Definition LinesMax : nat := 64.

(** [LineFlag]: the flags of an ABI v1 line info. *)
Definition LineFlagRequested : Z := 1.
Definition LineFlagIsOut : Z := 2.
Definition LineFlagActiveLow : Z := 4.
Definition LineFlagOpenDrain : Z := 8.
Definition LineFlagOpenSource : Z := 16.
Definition LineFlagPullUp : Z := 32.
Definition LineFlagPullDown : Z := 64.
Definition LineFlagBiasDisable : Z := 128.

(** [HandleFlag]: the flags of an ABI v1 handle request. *)
Definition HandleRequestInput : Z := 1.
Definition HandleRequestOutput : Z := 2.
Definition HandleRequestActiveLow : Z := 4.
Definition HandleRequestOpenDrain : Z := 8.
Definition HandleRequestOpenSource : Z := 16.
Definition HandleRequestPullUp : Z := 32.
Definition HandleRequestPullDown : Z := 64.
Definition HandleRequestBiasDisable : Z := 128.

(** [EventFlag]: the flags of an ABI v1 event request. *)
Definition EventRequestRisingEdge : Z := 1.
Definition EventRequestFallingEdge : Z := 2.
Definition EventRequestBothEdges : Z := 3.

(** [LineFlagV2]: which fields of a line configuration are meaningful. *)
Definition LineFlagV2ActiveLow : Z := 2.
Definition LineFlagV2Direction : Z := 4.
Definition LineFlagV2Drive : Z := 8.
Definition LineFlagV2Bias : Z := 16.
Definition LineFlagV2Debounce : Z := 64.

(** The flag tests are methods of the flag types: a mask test. *)
Definition has (flags mask : Z) : bool := negb (Z.land flags mask =? 0).

(** [LineValues]: the ABI v2 values of the lines of a request, one bit per
    line, in request order.  [Set] makes line [i] active for a non-zero
    value and inactive for zero; [Get] reads the active state back as 1 or
    0.  A line index beyond the bitmap's 64 bits is outside it: [Set] leaves
    the bitmap alone and [Get] reads 0. *)
Definition LineValues : Set := Z.

Definition LineValues_Set (i : nat) (v : Z) (lv : LineValues) : LineValues :=
  if (i <? LinesMax)%nat
  then (if v =? 0 then Z.clearbit lv (Z.of_nat i) else Z.setbit lv (Z.of_nat i))
  else lv.

Definition LineValues_Get (i : nat) (lv : LineValues) : Z :=
  if (i <? LinesMax)%nat && Z.testbit lv (Z.of_nat i) then 1 else 0.

Definition NewLineValues (value : Z) : LineValues := LineValues_Set 0 value 0.

(** [HandleData]: the ABI v1 values of the lines of a request, an array of
    [HandlesMax] bytes. *)
Definition HandleData : Set := list Z.
Definition HandleData_zero : HandleData := replicate HandlesMax 0.

Record ChipInfo : Set := {
  ci_Name : list Z;
  ci_Label : list Z;
  ci_Lines : Z
}.

Record LineInfo : Set := {
  li_Offset : Z;
  li_Flags : Z;
  li_Name : list Z;
  li_Consumer : list Z
}.

Record LineConfig : Set := {
  Flags : Z;
  Direction : LineDirection;
  Drive : LineDrive;
  Bias : LineBias;
  EdgeDetection : LineEdge;
  Debounce : Z;
  Values : LineValues
}.

Record LineInfoV2 : Set := {
  li2_Offset : Z;
  li2_Name : list Z;
  li2_Consumer : list Z;
  li2_Config : LineConfig
}.

Record LineRequest : Set := {
  lr_Offsets : list Z;
  lr_Consumer : list Z;
  lr_Config : LineConfig;
  lr_Lines : Z
}.

Record HandleRequest : Set := {
  hr_Offsets : list Z;
  hr_Flags : Z;
  hr_DefaultValues : list Z;
  hr_Consumer : list Z;
  hr_Lines : Z
}.

Record EventRequest : Set := {
  er_Offset : Z;
  er_HandleFlags : Z;
  er_EventFlags : Z;
  er_Consumer : list Z
}.

Record HandleConfig : Set := {
  hc_Flags : Z;
  hc_DefaultValues : list Z
}.

(** [BytesToString]: the text of a fixed-size name buffer, cut at its first
    zero byte. *)
Fixpoint BytesToString (bs : list Z) : string :=
  match bs with
  | [] => EmptyString
  | b :: bs' =>
      if b =? 0 then EmptyString
      else String (Ascii.ascii_of_N (Z.to_N b)) (BytesToString bs')
  end.

End uapi.

(** ** Go conversions and array stores *)

Definition uint8 (v : Z) : Z := v mod 256.
Definition uint32 (v : Z) : Z := v mod 4294967296.

Definition bytes_of_string (s : string) : list Z :=
  (fun a => Z.of_N (Ascii.N_of_ascii a)) <$> String.list_ascii_of_string s.

(** [copy(dst[:len(dst)-1], s)] into a zeroed array of [n] bytes; the
    consumer arrays of the request structures have the kernel's 32. *)
Definition copy_consumer (n : nat) (s : string) : list Z :=
  let src := take (n - 1)%nat (bytes_of_string s) in
  src ++ replicate (n - length src)%nat 0.

(** [a[i] = x]: Go panics when [i] is outside the array. *)
Definition store (i : nat) (x : Z) (a : list Z) : option (list Z) :=
  if (i <? length a)%nat then Some (<[i:=x]> a) else None.

(** [for i, v := range vs { a[i] = conv(v) }], [i] counting from [from]. *)
Fixpoint store_range (conv : Z → Z) (from : nat) (vs : list Z) (a : list Z)
  : option (list Z) :=
  match vs with
  | [] => Some a
  | v :: vs' =>
      match store from (conv v) a with
      | Some a' => store_range conv (S from) vs' a'
      | None => None
      end
  end.

(** [for i, v := range vs { lv.Set(i, v) }], [i] counting from [from]. *)
Fixpoint set_range (from : nat) (vs : list Z) (lv : uapi.LineValues)
  : uapi.LineValues :=
  match vs with
  | [] => lv
  | v :: vs' => set_range (S from) vs' (uapi.LineValues_Set from v lv)
  end.

(** ** The data model of gpiod.go *)

(** [LineConfig]: the configuration parameters of a line. *)
Record LineConfig : Set := {
  Flags : Z;
  Direction : uapi.LineDirection;
  Drive : uapi.LineDrive;
  Bias : uapi.LineBias;
  EdgeDetection : uapi.LineEdge;
  Debounce : Z
}.

(** The Go zero value [LineConfig{}]. *)
Definition LineConfig_zero : LineConfig :=
  {| Flags := 0; Direction := uapi.LineDirectionInput;
     Drive := uapi.LineDrivePushPull; Bias := uapi.LineBiasDisabled;
     EdgeDetection := uapi.LineEdgeNone; Debounce := 0 |}.

(** [LineInfo]: the publicly available information about a line. *)
Record LineInfo : Set := {
  Offset : Z;
  Name : string;
  Consumer : string;
  Config : LineConfig
}.

Definition LineInfo_zero : LineInfo :=
  {| Offset := 0; Name := ""; Consumer := ""; Config := LineConfig_zero |}.

(** Callbacks are known by their identity only; [None] is a nil func. *)
Definition EventHandler : Set := option nat.
Definition InfoChangeHandler : Set := option nat.

(** The watchers live in another file of the package; gpiod.go holds them
    as handles it can close. *)
Definition Watcher : Set := Z.
Definition infoWatcher : Set := Z.

(** [ChipOptions] and [LineOptions], with the fields gpiod.go reads and
    writes.  An option is anything with an apply method that updates the
    options it is given. *)
Record ChipOptions : Set := {
  co_consumer : string;
  co_Config : LineConfig;
  co_abi : Z
}.

Record LineOptions : Set := {
  lo_consumer : string;
  lo_Config : LineConfig;
  lo_values : list Z;
  lo_abi : Z;
  lo_eh : EventHandler
}.

Definition ChipOption : Set := ChipOptions → ChipOptions.
Definition LineOption : Set := LineOptions → LineOptions.
Definition LineReconfig : Set := LineOptions → LineOptions.

Definition lo_with_values (vs : list Z) (lo : LineOptions) : LineOptions :=
  {| lo_consumer := lo_consumer lo; lo_Config := lo_Config lo;
     lo_values := vs; lo_abi := lo_abi lo; lo_eh := lo_eh lo |}.

(** [Chip]: one GPIO chip.  [c_ich] is [None] for the nil map. *)
Record Chip : Type := {
  c_f : Z;
  c_Name : string;
  c_Label : string;
  c_lines : Z;
  c_options : ChipOptions;
  c_iw : option infoWatcher;
  c_ich : option (gmap Z InfoChangeHandler);
  c_closed : bool
}.

(** [baseLine]: the state shared by [Line] and [Lines].  [info] is [None]
    for the nil slice, [watcher] is [None] for the nil interface. *)
Record baseLine : Set := {
  offsets : list Z;
  vfd : Z;
  isEvent : bool;
  chip : string;
  abi : Z;
  config : LineConfig;
  values : list Z;
  info : option (list LineInfo);
  closed : bool;
  watcher : option Watcher
}.

Definition Line : Set := baseLine.
Definition Lines : Set := baseLine.

Definition set_closed (b : bool) (l : baseLine) : baseLine :=
  {| offsets := offsets l; vfd := vfd l; isEvent := isEvent l; chip := chip l;
     abi := abi l; config := config l; values := values l; info := info l;
     closed := b; watcher := watcher l |}.

Definition set_config (cfg : LineConfig) (l : baseLine) : baseLine :=
  {| offsets := offsets l; vfd := vfd l; isEvent := isEvent l; chip := chip l;
     abi := abi l; config := cfg; values := values l; info := info l;
     closed := closed l; watcher := watcher l |}.

Definition set_values (vs : list Z) (l : baseLine) : baseLine :=
  {| offsets := offsets l; vfd := vfd l; isEvent := isEvent l; chip := chip l;
     abi := abi l; config := config l; values := vs; info := info l;
     closed := closed l; watcher := watcher l |}.

Definition set_info (inf : option (list LineInfo)) (l : baseLine) : baseLine :=
  {| offsets := offsets l; vfd := vfd l; isEvent := isEvent l; chip := chip l;
     abi := abi l; config := config l; values := values l; info := inf;
     closed := closed l; watcher := watcher l |}.

Definition c_set_closed (b : bool) (c : Chip) : Chip :=
  {| c_f := c_f c; c_Name := c_Name c; c_Label := c_Label c;
     c_lines := c_lines c; c_options := c_options c; c_iw := c_iw c;
     c_ich := c_ich c; c_closed := b |}.

Definition c_set_abi (v : Z) (c : Chip) : Chip :=
  {| c_f := c_f c; c_Name := c_Name c; c_Label := c_Label c;
     c_lines := c_lines c;
     c_options := {| co_consumer := co_consumer (c_options c);
                     co_Config := co_Config (c_options c); co_abi := v |};
     c_iw := c_iw c; c_ich := c_ich c; c_closed := c_closed c |}.

Definition c_set_Label (s : string) (c : Chip) : Chip :=
  {| c_f := c_f c; c_Name := c_Name c; c_Label := s;
     c_lines := c_lines c; c_options := c_options c; c_iw := c_iw c;
     c_ich := c_ich c; c_closed := c_closed c |}.

Definition c_set_watch (iw : option infoWatcher)
    (ich : option (gmap Z InfoChangeHandler)) (c : Chip) : Chip :=
  {| c_f := c_f c; c_Name := c_Name c; c_Label := c_Label c;
     c_lines := c_lines c; c_options := c_options c; c_iw := iw;
     c_ich := ich; c_closed := c_closed c |}.

(** ** The environment: system calls, ioctls and watcher construction *)

(** One constructor per call gpiod.go makes out of the package, indexed by
    what the call hands back: a result or an error ([inl] or [inr]), or the
    error alone.  [os_IsChip] stands for the device-identity check of
    [IsChip], whose body only queries the file system; a failed ioctl leaves
    the structure it was given as it was. *)
Inductive Call : Type → Type :=
| os_IsChip (path : string) : Call error
| os_Getpid : Call Z
| os_OpenFile (path : string) : Call (Z + Error)
| file_Close (fd : Z) : Call error
| unix_Close (fd : Z) : Call error
| uapi_GetChipInfo (fd : Z) : Call (uapi.ChipInfo + Error)
| uapi_GetLineInfo (fd : Z) (offset : Z) : Call (uapi.LineInfo + Error)
| uapi_GetLineInfoV2 (fd : Z) (offset : Z) : Call (uapi.LineInfoV2 + Error)
| uapi_WatchLineInfo (fd : Z) (offset : Z) : Call (uapi.LineInfo + Error)
| uapi_WatchLineInfoV2 (fd : Z) (offset : Z) : Call (uapi.LineInfoV2 + Error)
| uapi_UnwatchLineInfo (fd : Z) (offset : Z) : Call error
| uapi_GetLine (fd : Z) (lr : uapi.LineRequest) : Call (Z + Error)
| uapi_GetLineEvent (fd : Z) (er : uapi.EventRequest) : Call (Z + Error)
| uapi_GetLineHandle (fd : Z) (hr : uapi.HandleRequest) : Call (Z + Error)
| uapi_SetLineConfig (fd : Z) (hc : uapi.HandleConfig) : Call error
| uapi_SetLineConfigV2 (fd : Z) (lc : uapi.LineConfig) : Call error
| uapi_GetLineValues (fd : Z) : Call (uapi.HandleData + Error)
| uapi_SetLineValues (fd : Z) (hd : uapi.HandleData) : Call error
| uapi_GetLineValuesV2 (fd : Z) : Call (uapi.LineValues + Error)
| uapi_SetLineValuesV2 (fd : Z) (lv : uapi.LineValues) : Call error
| newWatcher (fd : Z) (eh : EventHandler) : Call (Watcher + Error)
| newWatcherV1 (fds : gmap Z Z) (eh : EventHandler) : Call (Watcher + Error)
| newInfoWatcher (fd : Z) (abi : Z) : Call (infoWatcher + Error)
| watcher_Close (w : Watcher) : Call error
| infoWatcher_close (iw : infoWatcher) : Call unit.

(** A call with its result type hidden, as the trace records it. *)
Definition AnyCall : Type := { R : Type & Call R }.
Definition any {R : Type} (c : Call R) : AnyCall := existT R c.

(** The world: the kernel's state and the calls issued so far. *)
Record World (K : Type) : Type := {
  kern : K;
  trace : list AnyCall
}.
Arguments kern {K} _.
Arguments trace {K} _.

(** The monad of gpiod.go's functions: world passing, [None] for a
    run-time panic. *)
Definition M (K : Type) (A : Type) : Type := World K → option (A * World K).

#[global] Instance M_ret (K : Type) : MRet (M K) := λ A a w, Some (a, w).
#[global] Instance M_bind (K : Type) : MBind (M K) :=
  λ A B f m w, match m w with Some (a, w') => f a w' | None => None end.

Definition panic {K A : Type} : M K A := λ _, None.

Definition or_panic {K A : Type} (o : option A) : M K A :=
  match o with Some a => mret a | None => panic end.

(** ** The functions of gpiod.go *)

Section Gpiod.

Context {K : Type}.

(** The kernel: how it answers a call in a given state, and the state it is
    in afterwards. *)
Variable ioctl : ∀ R : Type, Call R → K → R * K.

(** Issue a call: the kernel steps and the trace grows by the call. *)
Definition sys {R : Type} (c : Call R) : M K R :=
  λ w, let (r, k) := ioctl R c (kern w) in
       Some (r, {| kern := k; trace := trace w ++ [any c] |}).

Definition nameToPath (name : string) : string :=
  if String.prefix "/dev/" name then name else "/dev/" +:+ name.

Definition IsChip (name : string) : M K error :=
  sys (os_IsChip (nameToPath name)).

Definition lineInfoToLineConfig (li : uapi.LineInfo) : LineConfig :=
  let f := uapi.li_Flags li in
  let flags0 :=
    if uapi.has f uapi.LineFlagActiveLow then uapi.LineFlagV2ActiveLow else 0 in
  let flags1 := Z.lor flags0 uapi.LineFlagV2Direction in
  let '(flags2, direction, drive) :=
    if uapi.has f uapi.LineFlagIsOut
    then (Z.lor flags1 uapi.LineFlagV2Drive, uapi.LineDirectionOutput,
          if uapi.has f uapi.LineFlagOpenDrain then uapi.LineDriveOpenDrain
          else if uapi.has f uapi.LineFlagOpenSource
               then uapi.LineDriveOpenSource
               else uapi.LineDrivePushPull)
    else (flags1, uapi.LineDirectionInput, uapi.LineDrivePushPull) in
  let '(flags3, bias) :=
    if uapi.has f uapi.LineFlagPullUp
    then (Z.lor flags2 uapi.LineFlagV2Bias, uapi.LineBiasPullUp)
    else if uapi.has f uapi.LineFlagPullDown
    then (Z.lor flags2 uapi.LineFlagV2Bias, uapi.LineBiasPullDown)
    else if uapi.has f uapi.LineFlagBiasDisable
    then (Z.lor flags2 uapi.LineFlagV2Bias, uapi.LineBiasDisabled)
    else (flags2, uapi.LineBiasDisabled) in
  {| Flags := flags3; Direction := direction; Drive := drive; Bias := bias;
     EdgeDetection := uapi.LineEdgeNone; Debounce := 0 |}.

Definition newLineInfo (li : uapi.LineInfo) : LineInfo :=
  {| Offset := uapi.li_Offset li;
     Name := uapi.BytesToString (uapi.li_Name li);
     Consumer := uapi.BytesToString (uapi.li_Consumer li);
     Config := lineInfoToLineConfig li |}.

Definition newLineInfoV2 (li : uapi.LineInfoV2) : LineInfo :=
  let lc := uapi.li2_Config li in
  {| Offset := uapi.li2_Offset li;
     Name := uapi.BytesToString (uapi.li2_Name li);
     Consumer := uapi.BytesToString (uapi.li2_Consumer li);
     Config := {| Flags := uapi.Flags lc; Direction := uapi.Direction lc;
                  Drive := uapi.Drive lc; Bias := uapi.Bias lc;
                  EdgeDetection := uapi.EdgeDetection lc;
                  Debounce := uapi.Debounce lc |} |}.

(** [Chip.LineInfo]: the named results start as the zero info and nil. *)
Definition Chip_LineInfo (offset : Z) (c : Chip) : M K (LineInfo * error) :=
  if c_closed c then mret (LineInfo_zero, Some ErrClosed)
  else if (offset <? 0) || (c_lines c <=? offset)
  then mret (LineInfo_zero, Some ErrInvalidOffset)
  else if co_abi (c_options c) =? 1 then
    r ← sys (uapi_GetLineInfo (c_f c) offset);
    match r with
    | inl li => mret (newLineInfo li, None)
    | inr e => mret (LineInfo_zero, Some e)
    end
  else
    r ← sys (uapi_GetLineInfoV2 (c_f c) offset);
    match r with
    | inl li => mret (newLineInfoV2 li, None)
    | inr e => mret (LineInfo_zero, Some e)
    end.

(** [NewChip]: opens a GPIO character device.  With no ABI version chosen
    by the options, the info of line 0 is asked for once and the answer
    decides the version. *)
Definition NewChip (name : string) (options : list ChipOption)
  : M K (option Chip * error) :=
  let path := nameToPath name in
  err ← IsChip path;
  match err with
  | Some e => mret (None, Some e)
  | None =>
    pid ← sys os_Getpid;
    let co := fold_left (λ co (option : ChipOption), option co) options
                {| co_consumer := "gpiod-" +:+ pretty pid;
                   co_Config := LineConfig_zero; co_abi := 0 |} in
    f ← sys (os_OpenFile path);
    match f with
    | inr e => mret (None, Some e)
    | inl fd =>
      ci ← sys (uapi_GetChipInfo fd);
      match ci with
      | inr e => _ ← sys (file_Close fd); mret (None, Some e)
      | inl ci =>
        let c := {| c_f := fd;
                    c_Name := uapi.BytesToString (uapi.ci_Name ci);
                    c_Label := uapi.BytesToString (uapi.ci_Label ci);
                    c_lines := uapi.ci_Lines ci;
                    c_options := co; c_iw := None; c_ich := None;
                    c_closed := false |} in
        c ← (if co_abi (c_options c) =? 0 then
               '(_, err) ← Chip_LineInfo 0 c;
               match err with
               | None => mret (c_set_abi 2 c)
               | Some _ => mret (c_set_abi 1 c)
               end
             else mret c);
        let c := if (String.length (c_Label c) =? 0)%nat
                 then c_set_Label "unknown" c else c in
        mret (Some c, None)
      end
    end
  end.

(** [Chip.Close]: releases the chip, not the lines requested from it. *)
Definition Chip_Close (c : Chip) : M K (Chip * error) :=
  let closed := c_closed c in
  let c := c_set_closed true c in
  if closed then mret (c, Some ErrClosed)
  else
    _ ← match c_iw c with
        | Some iw => sys (infoWatcher_close iw)
        | None => mret tt
        end;
    err ← sys (file_Close (c_f c));
    mret (c, err).

Definition lineConfigToHandleFlags (lc : LineConfig) : Z :=
  let f0 := if uapi.has (Flags lc) uapi.LineFlagV2ActiveLow
            then uapi.HandleRequestActiveLow else 0 in
  let f1 :=
    match Direction lc with
    | uapi.LineDirectionOutput => Z.lor f0 uapi.HandleRequestOutput
    | uapi.LineDirectionInput =>
        if uapi.has (Flags lc) uapi.LineFlagV2Direction
        then Z.lor f0 uapi.HandleRequestInput else f0
    end in
  let f2 :=
    match Drive lc with
    | uapi.LineDriveOpenDrain => Z.lor f1 uapi.HandleRequestOpenDrain
    | uapi.LineDriveOpenSource => Z.lor f1 uapi.HandleRequestOpenSource
    | uapi.LineDrivePushPull => f1
    end in
  match Bias lc with
  | uapi.LineBiasPullUp => Z.lor f2 uapi.HandleRequestPullUp
  | uapi.LineBiasPullDown => Z.lor f2 uapi.HandleRequestPullDown
  | uapi.LineBiasDisabled =>
      if uapi.has (Flags lc) uapi.LineFlagV2Bias
      then Z.lor f2 uapi.HandleRequestBiasDisable else f2
  end.

Definition lineConfigToEventFlag (lc : LineConfig) : Z :=
  match EdgeDetection lc with
  | uapi.LineEdgeBoth => uapi.EventRequestBothEdges
  | uapi.LineEdgeRising => uapi.EventRequestRisingEdge
  | uapi.LineEdgeFalling => uapi.EventRequestFallingEdge
  | uapi.LineEdgeNone => 0
  end.

(** The ABI v2 configuration built from a [LineConfig] and line values. *)
Definition toUapiLineConfig (lc : LineConfig) (vals : uapi.LineValues)
  : uapi.LineConfig :=
  {| uapi.Flags := Flags lc; uapi.Direction := Direction lc;
     uapi.Drive := Drive lc; uapi.Bias := Bias lc;
     uapi.EdgeDetection := EdgeDetection lc; uapi.Debounce := Debounce lc;
     uapi.Values := vals |}.

Definition getLine (c : Chip) (offsets : list Z) (lo : LineOptions)
  : M K (Z * option Watcher * error) :=
  offs ← or_panic (store_range uint32 0 offsets (replicate uapi.LinesMax 0));
  let vals := if (length offsets <? length (lo_values lo))%nat
              then take (length offsets) (lo_values lo) else lo_values lo in
  let lr := {| uapi.lr_Offsets := offs;
               uapi.lr_Consumer := copy_consumer 32 (lo_consumer lo);
               uapi.lr_Config :=
                 toUapiLineConfig (lo_Config lo) (set_range 0 vals 0);
               uapi.lr_Lines := uint32 (Z.of_nat (length offsets)) |} in
  r ← sys (uapi_GetLine (c_f c) lr);
  match r with
  | inr e => mret (0, None, Some e)
  | inl fd =>
    if decide (EdgeDetection (lo_Config lo) = uapi.LineEdgeNone)
    then mret (fd, None, None)
    else
      w ← sys (newWatcher fd (lo_eh lo));
      match w with
      | inr e => _ ← sys (unix_Close fd); mret (0, None, Some e)
      | inl w => mret (fd, Some w, None)
      end
  end.

(** The loop of [getEventRequest]: one event request per offset; the first
    descriptor becomes [vfd], every descriptor is recorded with its offset. *)
Fixpoint getEventRequest_loop (c : Chip) (lo : LineOptions) (i : nat)
    (offsets : list Z) (vfd : Z) (fds : gmap Z Z)
  : M K (Z * gmap Z Z + Error) :=
  match offsets with
  | [] => mret (inl (vfd, fds))
  | o :: rest =>
    let er := {| uapi.er_Offset := uint32 o;
                 uapi.er_HandleFlags := lineConfigToHandleFlags (lo_Config lo);
                 uapi.er_EventFlags := lineConfigToEventFlag (lo_Config lo);
                 uapi.er_Consumer := copy_consumer 32 (lo_consumer lo) |} in
    r ← sys (uapi_GetLineEvent (c_f c) er);
    match r with
    | inr e => mret (inr e)
    | inl fd =>
      getEventRequest_loop c lo (S i) rest
        (if (i =? 0)%nat then fd else vfd) (<[fd := o]> fds)
    end
  end.

(** [for fd := range fds { unix.Close(fd) }]: Go leaves the order of a map
    range open; the model takes the order of the map's listing. *)
Fixpoint close_all (fds : list Z) : M K unit :=
  match fds with
  | [] => mret tt
  | fd :: rest => _ ← sys (unix_Close fd); close_all rest
  end.

Definition getEventRequest (c : Chip) (offsets : list Z) (lo : LineOptions)
  : M K (Z * option Watcher * error) :=
  r ← getEventRequest_loop c lo 0 offsets 0 ∅;
  match r with
  | inr e => mret (0, None, Some e)
  | inl (vfd, fds) =>
    w ← sys (newWatcherV1 fds (lo_eh lo));
    match w with
    | inr e => _ ← close_all (map_to_list fds).*1; mret (0, None, Some e)
    | inl w => mret (vfd, Some w, None)
    end
  end.

Definition getHandleRequest (c : Chip) (offsets : list Z) (lo : LineOptions)
  : M K (Z * error) :=
  offs ← or_panic (store_range uint32 0 offsets (replicate uapi.HandlesMax 0));
  dv ← or_panic
         (store_range uint8 0 (lo_values lo) (replicate uapi.HandlesMax 0));
  let hr := {| uapi.hr_Offsets := offs;
               uapi.hr_Flags := lineConfigToHandleFlags (lo_Config lo);
               uapi.hr_DefaultValues := dv;
               uapi.hr_Consumer := copy_consumer 32 (lo_consumer lo);
               uapi.hr_Lines := uint32 (Z.of_nat (length offsets)) |} in
  r ← sys (uapi_GetLineHandle (c_f c) hr);
  match r with
  | inr e => mret (0, Some e)
  | inl fd => mret (fd, None)
  end.

(** The options a request starts from: the chip's defaults. *)
Definition defaultLineOptions (c : Chip) : LineOptions :=
  {| lo_consumer := co_consumer (c_options c);
     lo_Config := co_Config (c_options c);
     lo_values := [];
     lo_abi := co_abi (c_options c);
     lo_eh := None |}.

(** [for _, option := range options { option.applyLineOption(&lo) }]. *)
Definition applyLineOptions (options : list LineOption) (lo : LineOptions)
  : LineOptions :=
  fold_left (λ lo (option : LineOption), option lo) options lo.

(** [if len(lo.values) > n { lo.values = lo.values[:n] }]. *)
Definition truncate_values (n : nat) (lo : LineOptions) : LineOptions :=
  if (n <? length (lo_values lo))%nat
  then lo_with_values (take n (lo_values lo)) lo else lo.

(** The [lo] of [RequestLines] when it reaches the kernel call. *)
Definition effectiveLineOptions (c : Chip) (offsets : list Z)
    (options : list LineOption) : LineOptions :=
  truncate_values (length offsets)
    (applyLineOptions options (defaultLineOptions c)).

(** [Chip.RequestLines]: requests control of a collection of lines.  The
    receiver is handed back as the call leaves it. *)
Definition Chip_RequestLines (offsets : list Z) (options : list LineOption)
    (c : Chip) : M K (Chip * (option Lines * error)) :=
  if existsb (λ o, (o <? 0) || (c_lines c <=? o)) offsets
  then mret (c, (None, Some ErrInvalidOffset))
  else
    let lo := effectiveLineOptions c offsets options in
    let ll := {| offsets := offsets; vfd := 0; isEvent := false;
                 chip := c_Name c; abi := lo_abi lo; config := lo_Config lo;
                 values := lo_values lo; info := None; closed := false;
                 watcher := None |} in
    let mk (ev : bool) (fd : Z) (w : option Watcher) : baseLine :=
      {| offsets := offsets; vfd := fd; isEvent := ev;
         chip := c_Name c; abi := lo_abi lo; config := lo_Config lo;
         values := lo_values lo; info := None; closed := false;
         watcher := w |} in
    if abi ll =? 2 then
      '(fd, w, err) ← getLine c (offsets) lo;
      match err with
      | Some e => mret (c, (None, Some e))
      | None => mret (c, (Some (mk false fd w), None))
      end
    else if decide (lo_eh lo = None) then
      '(fd, err) ← getHandleRequest c offsets lo;
      match err with
      | Some e => mret (c, (None, Some e))
      | None => mret (c, (Some (mk false fd None), None))
      end
    else
      '(fd, w, err) ← getEventRequest c offsets lo;
      match err with
      | Some e => mret (c, (None, Some e))
      | None => mret (c, (Some (mk true fd w), None))
      end.

(** [Chip.RequestLine]: a single line, as the request of a collection of
    one; the fields of the collection are copied into the [Line]. *)
Definition Chip_RequestLine (offset : Z) (options : list LineOption)
    (c : Chip) : M K (Chip * (option Line * error)) :=
  '(c, (ll, err)) ← Chip_RequestLines [offset] options c;
  match err with
  | Some e => mret (c, (None, Some e))
  | None =>
    ll ← or_panic ll;
    mret (c, (Some {| offsets := offsets ll; vfd := vfd ll;
                      isEvent := isEvent ll; chip := chip ll; abi := abi ll;
                      config := config ll; values := values ll;
                      info := None; closed := false;
                      watcher := watcher ll |}, None))
  end.

(** [Chip.createInfoWatcher]: creates the watcher and an empty handler map. *)
Definition Chip_createInfoWatcher (c : Chip) : M K (Chip * error) :=
  r ← sys (newInfoWatcher (c_f c) (co_abi (c_options c)));
  match r with
  | inr e => mret (c, Some e)
  | inl iw => mret (c_set_watch (Some iw) (Some ∅) c, None)
  end.

(** [c.ich[offset] = lich]: a write to a nil map panics. *)
Definition register (offset : Z) (lich : InfoChangeHandler) (c : Chip)
  : M K Chip :=
  ich ← or_panic (c_ich c);
  mret (c_set_watch (c_iw c) (Some (<[offset := lich]> ich)) c).

(** [Chip.WatchLineInfo]: watches the changes of a line's info. *)
Definition Chip_WatchLineInfo (offset : Z) (lich : InfoChangeHandler)
    (c : Chip) : M K (Chip * (LineInfo * error)) :=
  if c_closed c then mret (c, (LineInfo_zero, Some ErrClosed))
  else
    '(c, err) ← match c_iw c with
                | None => Chip_createInfoWatcher c
                | Some _ => mret (c, None)
                end;
    match err with
    | Some e => mret (c, (LineInfo_zero, Some e))
    | None =>
      if co_abi (c_options c) =? 1 then
        r ← sys (uapi_WatchLineInfo (c_f c) (uint32 offset));
        match r with
        | inr e => mret (c, (LineInfo_zero, Some e))
        | inl li => c ← register offset lich c; mret (c, (newLineInfo li, None))
        end
      else
        r ← sys (uapi_WatchLineInfoV2 (c_f c) (uint32 offset));
        match r with
        | inr e => mret (c, (LineInfo_zero, Some e))
        | inl li =>
          c ← register offset lich c; mret (c, (newLineInfoV2 li, None))
        end
    end.

(** [Chip.UnwatchLineInfo]: [delete] on a nil map does nothing. *)
Definition Chip_UnwatchLineInfo (offset : Z) (c : Chip) : M K (Chip * error) :=
  if c_closed c then mret (c, None)
  else
    let c := c_set_watch (c_iw c) (delete offset <$> c_ich c) c in
    err ← sys (uapi_UnwatchLineInfo (c_f c) (uint32 offset));
    mret (c, err).

(** [baseLine.Close]: releases the resources of the requested line. *)
Definition baseLine_Close (l : baseLine) : M K (baseLine * error) :=
  if closed l then mret (l, Some ErrClosed)
  else
    let l := set_closed true l in
    _ ← match watcher l with
        | Some w => _ ← sys (watcher_Close w); mret tt
        | None => mret tt
        end;
    _ ← (if isEvent l then mret tt
         else _ ← sys (unix_Close (vfd l)); mret tt);
    mret (l, None).

(** The [lo] of [Reconfigure] when it reaches the kernel call: the cached
    configuration and values, the options applied, the values cut to the
    number of lines. *)
Definition reconfigOptions (l : baseLine) (options : list LineReconfig)
  : LineOptions :=
  truncate_values (length (offsets l))
    (applyLineOptions options
       {| lo_consumer := ""; lo_Config := config l; lo_values := values l;
          lo_abi := 0; lo_eh := None |}).

(** [baseLine.Reconfigure]: updates the configuration of the line(s). *)
Definition baseLine_Reconfigure (options : list LineReconfig) (l : baseLine)
  : M K (baseLine * error) :=
  if isEvent l then mret (l, Some unix.EINVAL)
  else if (length options =? 0)%nat then mret (l, None)
  else if closed l then mret (l, Some ErrClosed)
  else
    let lo := reconfigOptions l options in
    if abi l =? 1 then
      dv ← or_panic
             (store_range uint8 0 (lo_values lo)
                (replicate uapi.HandlesMax 0));
      let hc := {| uapi.hc_Flags := lineConfigToHandleFlags (lo_Config lo);
                   uapi.hc_DefaultValues := dv |} in
      err ← sys (uapi_SetLineConfig (vfd l) hc);
      match err with
      | None => mret (set_config (lo_Config lo) l, None)
      | Some e => mret (l, Some e)
      end
    else
      let vals :=
        match Direction (lo_Config lo) with
        | uapi.LineDirectionOutput => set_range 0 (lo_values lo) 0
        | uapi.LineDirectionInput => 0
        end in
      err ← sys (uapi_SetLineConfigV2 (vfd l)
                   (toUapiLineConfig (lo_Config lo) vals));
      match err with
      | None =>
        mret (set_values (lo_values lo) (set_config (lo_Config lo) l), None)
      | Some e => mret (l, Some e)
      end.

(** [hd[i]] on the array of [HandlesMax] bytes: a panic beyond it. *)
Definition HandleData_get (i : nat) (hd : uapi.HandleData) : option Z :=
  if (i <? uapi.HandlesMax)%nat then Some (default 0 (hd !! i)) else None.

(** [Line.Info]: the cached info, or the info fetched through a chip opened
    for the purpose and closed on the way out. *)
Definition Line_Info (l : Line) : M K (Line * (LineInfo * error)) :=
  if closed l then mret (l, (LineInfo_zero, Some ErrClosed))
  else
    match info l with
    | Some infs => inf ← or_panic (infs !! 0%nat); mret (l, (inf, None))
    | None =>
      '(c, err) ← NewChip (chip l) [];
      match err with
      | Some e => mret (l, (LineInfo_zero, Some e))
      | None =>
        c ← or_panic c;
        o ← or_panic (offsets l !! 0%nat);
        '(inf, err) ← Chip_LineInfo o c;
        _ ← Chip_Close c;
        match err with
        | Some e => mret (l, (LineInfo_zero, Some e))
        | None => mret (set_info (Some [inf]) l, (inf, None))
        end
      end
    end.

(** [Line.Value]: the current active state of the line. *)
Definition Line_Value (l : Line) : M K (Z * error) :=
  if closed l then mret (0, Some ErrClosed)
  else if abi l =? 1 then
    r ← sys (uapi_GetLineValues (vfd l));
    match r with
    | inl hd => v ← or_panic (HandleData_get 0 hd); mret (v, None)
    | inr e => mret (0, Some e)
    end
  else
    r ← sys (uapi_GetLineValuesV2 (vfd l));
    match r with
    | inl lv => mret (uapi.LineValues_Get 0 lv, None)
    | inr e => mret (0, Some e)
    end.

(** [Line.SetValue]: sets the active state of the line.  Under ABI v1 the
    handle data passed to the kernel is the zero array: [value] is never
    stored in it. *)
Definition Line_SetValue (value : Z) (l : Line) : M K (Line * error) :=
  if negb (bool_decide (Direction (config l) = uapi.LineDirectionOutput))
  then mret (l, Some ErrPermissionDenied)
  else if closed l then mret (l, Some ErrClosed)
  else if abi l =? 1 then
    let hd := uapi.HandleData_zero in
    err ← sys (uapi_SetLineValues (vfd l) hd);
    match err with
    | None => mret (set_values [value] l, None)
    | Some e => mret (l, Some e)
    end
  else
    let lv := uapi.NewLineValues value in
    err ← sys (uapi_SetLineValuesV2 (vfd l) lv);
    match err with
    | None => mret (set_values [value] l, None)
    | Some e => mret (l, Some e)
    end.

(** The loop of [Lines.Info]: the info of each offset, in order. *)
Fixpoint Lines_Info_loop (c : Chip) (offsets : list Z)
  : M K (list LineInfo + Error) :=
  match offsets with
  | [] => mret (inl [])
  | o :: rest =>
    '(inf, err) ← Chip_LineInfo o c;
    match err with
    | Some e => mret (inr e)
    | None =>
      r ← Lines_Info_loop c rest;
      match r with
      | inl infs => mret (inl (inf :: infs))
      | inr e => mret (inr e)
      end
    end
  end.

(** [Lines.Info]: the info of the lines, cached once fetched. *)
Definition Lines_Info (l : Lines) : M K (Lines * (option (list LineInfo) * error)) :=
  if closed l then mret (l, (None, Some ErrClosed))
  else
    match info l with
    | Some infs => mret (l, (Some infs, None))
    | None =>
      '(c, err) ← NewChip (chip l) [];
      match err with
      | Some e => mret (l, (None, Some e))
      | None =>
        c ← or_panic c;
        r ← Lines_Info_loop c (offsets l);
        _ ← Chip_Close c;
        match r with
        | inr e => mret (l, (None, Some e))
        | inl infs => mret (set_info (Some infs) l, (Some infs, None))
        end
      end
    end.

(** [for i := 0; i < lines; i++ { values[i] = get(i) }], [i] counting from
    [i] for [n] rounds. *)
Fixpoint fill (get : nat → option Z) (i n : nat) (values : list Z)
  : option (list Z) :=
  match n with
  | O => Some values
  | S n' =>
    match get i with
    | Some v => fill get (S i) n' (<[i := v]> values)
    | None => None
    end
  end.

(** [Lines.Values]: reads the values of the lines into the caller's slice,
    which is handed back as the call leaves it. *)
Definition Lines_Values (values : list Z) (l : Lines) : M K (list Z * error) :=
  if closed l then mret (values, Some ErrClosed)
  else
    let lines := Nat.min (length values) (length (offsets l)) in
    if abi l =? 1 then
      r ← sys (uapi_GetLineValues (vfd l));
      match r with
      | inr e => mret (values, Some e)
      | inl hd =>
        values ← or_panic (fill (λ i, HandleData_get i hd) 0 lines values);
        mret (values, None)
      end
    else
      r ← sys (uapi_GetLineValuesV2 (vfd l));
      match r with
      | inr e => mret (values, Some e)
      | inl lv =>
        values ← or_panic
                   (fill (λ i, Some (uapi.LineValues_Get i lv)) 0 lines values);
        mret (values, None)
      end.

(** [Lines.SetValues]: sets the active state of the lines.  The ABI v2
    call is issued whatever the ABI version of the request. *)
Definition Lines_SetValues (values : list Z) (l : Lines) : M K (Lines * error) :=
  if negb (bool_decide (Direction (config l) = uapi.LineDirectionOutput))
  then mret (l, Some ErrPermissionDenied)
  else if closed l then mret (l, Some ErrClosed)
  else
    let values := if (length (offsets l) <? length values)%nat
                  then take (length (offsets l)) values else values in
    let vv := set_range 0 values 0 in
    err ← sys (uapi_SetLineValuesV2 (vfd l) vv);
    match err with
    | None => mret (set_values values l, None)
    | Some e => mret (l, Some e)
    end.

(** [Chip.Lines], [baseLine.Chip], [Lines.Offsets]: what the chip and the
    request were made with.  [Line.Offset] reads [l.offsets[0]], a panic on
    a request of no line. *)
Definition Chip_Lines (c : Chip) : Z := c_lines c.

Definition baseLine_Chip (l : baseLine) : string := chip l.

Definition Line_Offset (l : Line) : option Z := offsets l !! 0%nat.

Definition Lines_Offsets (l : Lines) : list Z := offsets l.

(** The loop of [Chip.FindLine]: [for o := 0; o < c.lines; o++], here from
    [o] for the [n] rounds that are left. *)
Fixpoint Chip_FindLine_loop (name : string) (c : Chip) (o : Z) (n : nat)
  : M K (Z * error) :=
  match n with
  | O => mret (0, Some ErrLineNotFound)
  | S n' =>
    '(inf, err) ← Chip_LineInfo o c;
    match err with
    | Some e => mret (0, Some e)
    | None =>
      if bool_decide (Name inf = name) then mret (o, None)
      else Chip_FindLine_loop name c (o + 1) n'
    end
  end.

(** [Chip.FindLine]: the offset of the named line. *)
Definition Chip_FindLine (name : string) (c : Chip) : M K (Z * error) :=
  Chip_FindLine_loop name c 0 (Z.to_nat (c_lines c)).



(** The listing of a directory, as [ioutil.ReadDir] reads it off the
    kernel's state: the names of the entries, or an error. *)
Variable ioutil_ReadDir : string → K → list string + Error.

(** [chipNames]: the names of the potential chips, the entries of [/dev]
    whose name starts with [gpiochip]; none when [/dev] cannot be read. *)
Definition chipNames : M K (list string) :=
  λ w, match ioutil_ReadDir "/dev" (kern w) with
       | inr _ => Some ([], w)
       | inl ee => Some (List.filter (String.prefix "gpiochip") ee, w)
       end.

(** The loop of [Chips]: the names [IsChip] accepts, in order. *)
Fixpoint Chips_loop (names : list string) (cc : list string)
  : M K (list string) :=
  match names with
  | [] => mret cc
  | name :: rest =>
    err ← IsChip name;
    match err with
    | None => Chips_loop rest (cc ++ [name])
    | Some _ => Chips_loop rest cc
    end
  end.

(** [Chips]: the names of the available GPIO devices. *)
Definition Chips : M K (list string) :=
  names ← chipNames; Chips_loop names [].

(** The loop of [findLine]: the first chip, in the order of the names, that
    can be opened and has the line.  A chip that lacks the line is left as
    it is, and the search goes on. *)
Fixpoint findLine_loop (lname : string) (names : list string)
  : M K (option Chip * Z * error) :=
  match names with
  | [] => mret (None, 0, Some ErrLineNotFound)
  | name :: rest =>
    '(c, err) ← NewChip name [];
    match err with
    | Some _ => findLine_loop lname rest
    | None =>
      c ← or_panic c;
      '(o, err) ← Chip_FindLine lname c;
      match err with
      | None => mret (Some c, o, None)
      | Some _ => findLine_loop lname rest
      end
    end
  end.

Definition findLine (lname : string) : M K (option Chip * Z * error) :=
  names ← chipNames; findLine_loop lname names.


End Gpiod.

(** ** A kernel to run the functions on *)

(** A simulated kernel, in the manner of the package's test mockup: one
    chip of eight lines whose values are a bitmap.  [mk_v2] says whether the
    ABI v2 calls are supported, [mk_cfg] whether a set-config call is
    accepted, [mk_watch] whether an info watch is; a refused call fails with
    [EINVAL]. *)
Record MockK : Set := {
  mk_next : Z;
  mk_bits : Z;
  mk_v2 : bool;
  mk_cfg : bool;
  mk_watch : bool
}.

Definition mk_fresh (k : MockK) : MockK :=
  {| mk_next := mk_next k + 1; mk_bits := mk_bits k; mk_v2 := mk_v2 k;
     mk_cfg := mk_cfg k; mk_watch := mk_watch k |}.

Definition mk_store (bits : Z) (k : MockK) : MockK :=
  {| mk_next := mk_next k; mk_bits := bits; mk_v2 := mk_v2 k;
     mk_cfg := mk_cfg k; mk_watch := mk_watch k |}.

Definition mock_line (offset : Z) : uapi.LineInfo :=
  {| uapi.li_Offset := offset; uapi.li_Flags := 0;
     uapi.li_Name := []; uapi.li_Consumer := [] |}.

Definition mock_line2 (offset : Z) : uapi.LineInfoV2 :=
  {| uapi.li2_Offset := offset; uapi.li2_Name := []; uapi.li2_Consumer := [];
     uapi.li2_Config :=
       {| uapi.Flags := 0; uapi.Direction := uapi.LineDirectionInput;
          uapi.Drive := uapi.LineDrivePushPull;
          uapi.Bias := uapi.LineBiasDisabled;
          uapi.EdgeDetection := uapi.LineEdgeNone; uapi.Debounce := 0;
          uapi.Values := 0 |} |}.

Definition mock_chip_info : uapi.ChipInfo :=
  {| uapi.ci_Name := bytes_of_string "gpiochip0"; uapi.ci_Label := [];
     uapi.ci_Lines := 8 |}.

Definition mock_ioctl (R : Type) (c : Call R) (k : MockK) : R * MockK :=
  match c in Call R return R * MockK with
  | os_IsChip _ => (None, k)
  | os_Getpid => (4242, k)
  | os_OpenFile _ => (inl (mk_next k), mk_fresh k)
  | file_Close _ => (None, k)
  | unix_Close _ => (None, k)
  | uapi_GetChipInfo _ => (inl mock_chip_info, k)
  | uapi_GetLineInfo _ o => (inl (mock_line o), k)
  | uapi_GetLineInfoV2 _ o =>
      (if mk_v2 k then inl (mock_line2 o) else inr unix.EINVAL, k)
  | uapi_WatchLineInfo _ o =>
      (if mk_watch k then inl (mock_line o) else inr unix.EINVAL, k)
  | uapi_WatchLineInfoV2 _ o =>
      (if mk_watch k && mk_v2 k then inl (mock_line2 o)
       else inr unix.EINVAL, k)
  | uapi_UnwatchLineInfo _ _ => (None, k)
  | uapi_GetLine _ lr =>
      if mk_v2 k
      then (inl (mk_next k),
            mk_fresh (mk_store (uapi.Values (uapi.lr_Config lr)) k))
      else (inr unix.EINVAL, k)
  | uapi_GetLineEvent _ _ => (inl (mk_next k), mk_fresh k)
  | uapi_GetLineHandle _ hr =>
      (inl (mk_next k),
       mk_fresh (mk_store (set_range 0 (uapi.hr_DefaultValues hr) 0) k))
  | uapi_SetLineConfig _ _ =>
      (if mk_cfg k then None else Some unix.EINVAL, k)
  | uapi_SetLineConfigV2 _ _ =>
      (if mk_cfg k && mk_v2 k then None else Some unix.EINVAL, k)
  | uapi_GetLineValues _ =>
      (inl ((λ i, uapi.LineValues_Get i (mk_bits k))
              <$> seq 0 uapi.HandlesMax), k)
  | uapi_SetLineValues _ hd => (None, mk_store (set_range 0 hd 0) k)
  | uapi_GetLineValuesV2 _ =>
      (if mk_v2 k then inl (mk_bits k) else inr unix.EINVAL, k)
  | uapi_SetLineValuesV2 _ lv =>
      if mk_v2 k then (None, mk_store lv k) else (Some unix.EINVAL, k)
  | newWatcher fd _ => (inl fd, k)
  | newWatcherV1 _ _ => (inl 0, k)
  | newInfoWatcher fd _ => (inl fd, k)
  | watcher_Close _ => (None, k)
  | infoWatcher_close _ => (tt, k)
  end.

(** A kernel with both ABI generations, and one that predates ABI v2. *)
Definition mock_v2 : MockK :=
  {| mk_next := 3; mk_bits := 0; mk_v2 := true; mk_cfg := true;
     mk_watch := true |}.

Definition mock_v1 : MockK :=
  {| mk_next := 3; mk_bits := 0; mk_v2 := false; mk_cfg := true;
     mk_watch := true |}.

Definition start (k : MockK) : World MockK := {| kern := k; trace := [] |}.

(** The listing of [/dev] on the simulated system: the chip and one entry
    that is no chip. *)
Definition mock_dev (path : string) (k : MockK) : list string + Error :=
  inl ["gpiochip0"; "null"].

(** Options as the package's tests pass them: an output line with initial
    values, an input line, both-edge detection with its handler, and a
    choice of ABI version. *)
Definition cfg_with_direction (d : uapi.LineDirection) (lc : LineConfig)
  : LineConfig :=
  {| Flags := Z.lor (Flags lc) uapi.LineFlagV2Direction; Direction := d;
     Drive := Drive lc; Bias := Bias lc; EdgeDetection := EdgeDetection lc;
     Debounce := Debounce lc |}.


Definition AsOutput (vs : list Z) : LineOption := λ lo,
  {| lo_consumer := lo_consumer lo;
     lo_Config := cfg_with_direction uapi.LineDirectionOutput (lo_Config lo);
     lo_values := vs; lo_abi := lo_abi lo; lo_eh := lo_eh lo |}.




Definition WithABIVersion (v : Z) : LineOption := λ lo,
  {| lo_consumer := lo_consumer lo; lo_Config := lo_Config lo;
     lo_values := lo_values lo; lo_abi := v; lo_eh := lo_eh lo |}.

(** A chip of eight lines as [NewChip] leaves it, for a given ABI version. *)
Definition chip8 (v : Z) : Chip :=
  {| c_f := 3; c_Name := "gpiochip0"; c_Label := "unknown"; c_lines := 8;
     c_options := {| co_consumer := "gpiod-4242";
                     co_Config := LineConfig_zero; co_abi := v |};
     c_iw := None; c_ich := None; c_closed := false |}.

(** A request of [offs] as output lines with cached values [vs]. *)
Definition output_request (v : Z) (offs vs : list Z) : baseLine :=
  {| offsets := offs; vfd := 4; isEvent := false; chip := "gpiochip0";
     abi := v;
     config := cfg_with_direction uapi.LineDirectionOutput LineConfig_zero;
     values := vs; info := None; closed := false; watcher := None |}.

(** * The vocabulary of the properties *)

(** Unfold the monad and name the kernel's answers. *)
Ltac mrun :=
  unfold mbind, M_bind, mret, M_ret, sys, panic, or_panic; simpl;
  repeat match goal with
         | |- context [let (_, _) := ?x in _] =>
             destruct x as [? ?] eqn:?; simpl
         end.

(** Split a conjunction of closed facts and evaluate each. *)
Ltac evaluate :=
  repeat match goal with |- _ ∧ _ => split end;
  try (vm_compute; reflexivity).

(** The world after one call. *)
Definition after {K R : Type} (ioctl : ∀ R : Type, Call R → K → R * K)
    (c : Call R) (w : World K) : World K :=
  {| kern := snd (ioctl R c (kern w)); trace := trace w ++ [any c] |}.

(** The kernel's answer to a call in a world. *)
Definition answer {K R : Type} (ioctl : ∀ R : Type, Call R → K → R * K)
    (c : Call R) (w : World K) : R :=
  fst (ioctl R c (kern w)).


(** The bitmap [SetValues] builds from the values it writes. *)
Definition bitmap_of (vs : list Z) : uapi.LineValues := set_range 0 vs 0.







(** The handler registered for an offset; none under the nil map. *)
Definition handler_of (c : Chip) (offset : Z) : option InfoChangeHandler :=
  c_ich c ≫= (λ m : gmap Z InfoChangeHandler, m !! offset).

(** The watcher and the handler map of a chip come and go together. *)
Definition chip_wf (c : Chip) : Prop :=
  (c_iw c = None → c_ich c = None) ∧ (is_Some (c_iw c) → is_Some (c_ich c)).

(** A computation grows the trace: it only appends calls. *)
Definition grows {K A : Type} (m : M K A) : Prop :=
  ∀ w r w', m w = Some (r, w') → ∃ rest, trace w' = trace w ++ rest.




(** Take a run apart: every step of it and every branch of the code is
    followed to the result. *)
Ltac unbind H :=
  unfold mbind, M_bind in H;
  repeat (match type of H with
          | context [match ?x with _ => _ end] => destruct x eqn:?
          end; simpl in H);
  try discriminate H.

(** A computation returns: in no world does it end in a panic. *)
Definition returns {K A : Type} (m : M K A) : Prop := ∀ w, is_Some (m w).

(** What the source calls immutable in a request (the fields above the
    mutex of [baseLine]), with the watcher, is the same in [l'] as in [l],
    and [l'] is closed if [l] was. *)
Definition same_request (l l' : baseLine) : Prop :=
  offsets l' = offsets l ∧ vfd l' = vfd l ∧ isEvent l' = isEvent l ∧
  chip l' = chip l ∧ abi l' = abi l ∧ watcher l' = watcher l ∧
  (closed l = true → closed l' = true).

(** The cached values of a request do not outnumber its lines. *)
Definition values_fit (l : baseLine) : Prop :=
  (length (values l) ≤ length (offsets l))%nat.


(** The file a call closes, and the file whose chip info a call asks for. *)
Definition closes_file (a : AnyCall) : option Z :=
  match projT2 a with
  | file_Close fd => Some fd
  | _ => None
  end.

Definition asks_chip_info (a : AnyCall) : option Z :=
  match projT2 a with
  | uapi_GetChipInfo fd => Some fd
  | _ => None
  end.

(** In a sequence of calls a file is closed only by the call that follows
    the chip-info query of that file: the way [NewChip] gives up a file
    whose chip info it could not read. *)
Definition closes_after_info (calls : list AnyCall) : Prop :=
  ∀ i a fd, calls !! i = Some a → closes_file a = Some fd →
    ∃ j b, i = S j ∧ calls !! j = Some b ∧ asks_chip_info b = Some fd.

(** None of a list of calls closes a file. *)
Ltac quiet :=
  repeat (apply List.Forall_cons; [reflexivity |]); apply List.Forall_nil.

(** * Properties *)

(** ** Running the monad *)

Lemma bind_Some {K A B : Type} (m : M K A) (f : A → M K B) (w : World K)
    (r : B * World K) :
  (m ≫= f) w = Some r ↔ ∃ a w1, m w = Some (a, w1) ∧ f a w1 = Some r.
Proof.
  unfold mbind, M_bind. split.
  - destruct (m w) as [[a w1]|]; [eauto | discriminate].
  - intros (a & w1 & -> & H). exact H.
Qed.

Lemma sys_run {K R : Type} (ioctl : ∀ R : Type, Call R → K → R * K)
    (c : Call R) (w : World K) :
  sys ioctl c w =
    Some (fst (ioctl R c (kern w)),
          {| kern := snd (ioctl R c (kern w)); trace := trace w ++ [any c] |}).
Proof. unfold sys. destruct (ioctl R c (kern w)); reflexivity. Qed.

Lemma ret_run {K A : Type} (a : A) (w : World K) :
  (mret a : M K A) w = Some (a, w).
Proof. reflexivity. Qed.

Lemma bind_run {K A B : Type} (m : M K A) (f : A → M K B) (w w1 : World K)
    (a : A) :
  m w = Some (a, w1) → (m ≫= f) w = f a w1.
Proof. unfold mbind, M_bind. intros ->. reflexivity. Qed.

Lemma bind_sys {K R B : Type} (ioctl : ∀ R : Type, Call R → K → R * K)
    (c : Call R) (f : R → M K B) (w : World K) :
  (sys ioctl c ≫= f) w =
    f (fst (ioctl R c (kern w)))
      {| kern := snd (ioctl R c (kern w)); trace := trace w ++ [any c] |}.
Proof. apply bind_run, sys_run. Qed.

Lemma bind_assoc_run {K A B C : Type} (m : M K A) (f : A → M K B)
    (g : B → M K C) (w : World K) :
  ((m ≫= f) ≫= g) w = (m ≫= (λ a, f a ≫= g)) w.
Proof. unfold mbind, M_bind. destruct (m w) as [[a w1]|]; reflexivity. Qed.

Lemma bind_ret {K A B : Type} (a : A) (f : A → M K B) (w : World K) :
  ((mret a : M K A) ≫= f) w = f a w.
Proof. reflexivity. Qed.


(** ** C7: line info of a chip *)

(** C7. [Chip.LineInfo] on a closed chip returns the closed error; on an
    open chip with an offset that is negative or not below the line count it
    returns the invalid-offset error; in both cases no call reaches the
    kernel.  Otherwise it issues exactly one info query, the ABI v1 query
    when the chip's cached version is 1 and the ABI v2 query when it is not
    (version 2 in particular), and hands back the kernel's answer decoded or
    the kernel's error.  No request of the line takes part. *)
Theorem Chip_LineInfo_spec {K : Type}
    (ioctl : ∀ R : Type, Call R → K → R * K)
    (c : Chip) (offset : Z) (w : World K) :
  (c_closed c = true →
     Chip_LineInfo ioctl offset c w
       = Some ((LineInfo_zero, Some ErrClosed), w)) ∧
  (c_closed c = false → offset < 0 ∨ c_lines c ≤ offset →
     Chip_LineInfo ioctl offset c w
       = Some ((LineInfo_zero, Some ErrInvalidOffset), w)) ∧
  (c_closed c = false → 0 ≤ offset < c_lines c →
     co_abi (c_options c) = 1 →
     let q := uapi_GetLineInfo (c_f c) offset in
     Chip_LineInfo ioctl offset c w
       = Some (match answer ioctl q w with
               | inl li => (newLineInfo li, None)
               | inr e => (LineInfo_zero, Some e)
               end, after ioctl q w)) ∧
  (c_closed c = false → 0 ≤ offset < c_lines c →
     co_abi (c_options c) ≠ 1 →
     let q := uapi_GetLineInfoV2 (c_f c) offset in
     Chip_LineInfo ioctl offset c w
       = Some (match answer ioctl q w with
               | inl li => (newLineInfoV2 li, None)
               | inr e => (LineInfo_zero, Some e)
               end, after ioctl q w)).
Proof.
  split; [|split; [|split]].
  - intros Hc. unfold Chip_LineInfo. rewrite Hc. reflexivity.
  - intros Hc Hoff. unfold Chip_LineInfo. rewrite Hc.
    assert ((offset <? 0) || (c_lines c <=? offset) = true) as ->
      by (apply orb_true_iff; destruct Hoff; [left | right]; lia).
    reflexivity.
  - intros Hc Hoff Habi q. unfold Chip_LineInfo. rewrite Hc.
    assert ((offset <? 0) || (c_lines c <=? offset) = false) as ->
      by (apply orb_false_iff; split; lia).
    rewrite Habi. simpl. rewrite bind_sys. fold q.
    unfold answer, after.
    destruct (ioctl _ q (kern w)) as [[li|e] k]; reflexivity.
  - intros Hc Hoff Habi q. unfold Chip_LineInfo. rewrite Hc.
    assert ((offset <? 0) || (c_lines c <=? offset) = false) as ->
      by (apply orb_false_iff; split; lia).
    assert ((co_abi (c_options c) =? 1) = false) as -> by lia.
    rewrite bind_sys. fold q.
    unfold answer, after.
    destruct (ioctl _ q (kern w)) as [[li|e] k]; reflexivity.
Qed.

(** On the simulated kernel: offset 9 of an eight-line chip is refused
    before any call, offset 3 is asked of the kernel through the ABI v2
    query of a version-2 chip, and a closed chip answers nothing. *)
Lemma Chip_LineInfo_spec_witness :
  Chip_LineInfo mock_ioctl 3 (c_set_closed true (chip8 2)) (start mock_v2)
    = Some ((LineInfo_zero, Some ErrClosed), start mock_v2) ∧
  Chip_LineInfo mock_ioctl 9 (chip8 2) (start mock_v2)
    = Some ((LineInfo_zero, Some ErrInvalidOffset), start mock_v2) ∧
  trace <$> (snd <$> Chip_LineInfo mock_ioctl 3 (chip8 1) (start mock_v2))
    = Some [any (uapi_GetLineInfo 3 3)] ∧
  trace <$> (snd <$> Chip_LineInfo mock_ioctl 3 (chip8 2) (start mock_v2))
    = Some [any (uapi_GetLineInfoV2 3 3)].
Proof.
  pose proof (Chip_LineInfo_spec mock_ioctl (c_set_closed true (chip8 2)) 3
                (start mock_v2)) as (H1 & _).
  pose proof (Chip_LineInfo_spec mock_ioctl (chip8 2) 9 (start mock_v2))
    as (_ & H2 & _).
  pose proof (Chip_LineInfo_spec mock_ioctl (chip8 1) 3 (start mock_v2))
    as (_ & _ & H3 & _).
  pose proof (Chip_LineInfo_spec mock_ioctl (chip8 2) 3 (start mock_v2))
    as (_ & _ & _ & H4).
  split; [apply H1; reflexivity |].
  split; [apply H2; [reflexivity | right; simpl; lia] |].
  split.
  - rewrite H3; [reflexivity | reflexivity | simpl; lia | reflexivity].
  - rewrite H4; [reflexivity | reflexivity | simpl; lia | simpl; lia].
Defined.

(** ** C5: operations on a closed request *)

(** C5, as the code has it.  Closing an open request succeeds and leaves it
    closed.  On a closed request nothing reaches the kernel and the request
    stays as it is: [Close] returns the closed error; [Value], [Values],
    [Info] of a line and [Info] of lines return the closed error;
    [SetValue] and [SetValues] return the closed error for an output
    request and the permission error otherwise; [Reconfigure] returns
    [EINVAL] for an ABI v1 event request, returns nil when it is given no
    option, and returns the closed error otherwise. *)
Theorem closed_request_operations {K : Type}
    (ioctl : ∀ R : Type, Call R → K → R * K) (l : baseLine) (w : World K) :
  (closed l = false →
     ∃ l' w', baseLine_Close ioctl l w = Some ((l', None), w')
              ∧ closed l' = true) ∧
  (closed l = true →
     baseLine_Close ioctl l w = Some ((l, Some ErrClosed), w) ∧
     Line_Value ioctl l w = Some ((0, Some ErrClosed), w) ∧
     (∀ buf, Lines_Values ioctl buf l w = Some ((buf, Some ErrClosed), w)) ∧
     Line_Info ioctl l w = Some ((l, (LineInfo_zero, Some ErrClosed)), w) ∧
     Lines_Info ioctl l w = Some ((l, (None, Some ErrClosed)), w) ∧
     (∀ v, Line_SetValue ioctl v l w =
             Some ((l, Some (if decide (Direction (config l)
                                          = uapi.LineDirectionOutput)
                             then ErrClosed else ErrPermissionDenied)), w)) ∧
     (∀ vs, Lines_SetValues ioctl vs l w =
              Some ((l, Some (if decide (Direction (config l)
                                           = uapi.LineDirectionOutput)
                              then ErrClosed else ErrPermissionDenied)), w)) ∧
     (∀ options, baseLine_Reconfigure ioctl options l w =
        Some ((l, if isEvent l then Some unix.EINVAL
                  else match options with
                       | [] => None
                       | _ :: _ => Some ErrClosed
                       end), w))).
Proof.
  split.
  - intros Hc. unfold baseLine_Close. rewrite Hc.
    destruct (watcher l) as [wt|] eqn:Hw, (isEvent l) eqn:He;
      simpl; rewrite ?Hw, ?He; mrun; eexists _, _; split; reflexivity.
  - intros Hc.
    unfold baseLine_Close, Line_Value, Lines_Values, Line_Info, Lines_Info,
      Line_SetValue, Lines_SetValues, baseLine_Reconfigure.
    rewrite Hc. repeat split; try reflexivity.
    + intros v. case_decide as Hd.
      * rewrite bool_decide_eq_true_2 by done. reflexivity.
      * rewrite bool_decide_eq_false_2 by done. reflexivity.
    + intros vs. case_decide as Hd.
      * rewrite bool_decide_eq_true_2 by done. reflexivity.
      * rewrite bool_decide_eq_false_2 by done. reflexivity.
    + intros options. destruct (isEvent l); [reflexivity |].
      destruct options; reflexivity.
Qed.

(** A closed output request answers [Value] with the closed error. *)
Lemma closed_request_operations_witness :
  closed (set_closed true (output_request 2 [3] [1])) = true ∧
  Line_Value mock_ioctl (set_closed true (output_request 2 [3] [1]))
    (start mock_v2) = Some ((0, Some ErrClosed), start mock_v2).
Proof.
  split; [reflexivity |].
  apply (closed_request_operations mock_ioctl
           (set_closed true (output_request 2 [3] [1])) (start mock_v2)).
  reflexivity.
Defined.

(** C5 as stated fails: after a successful [Close], [Reconfigure] with no
    option returns nil, not the closed error. *)
Lemma reconfigure_after_close_succeeds :
  ∃ l1 w1,
    baseLine_Close mock_ioctl (output_request 2 [3] [1]) (start mock_v2)
      = Some ((l1, None), w1) ∧
    closed l1 = true ∧
    baseLine_Reconfigure mock_ioctl [] l1 w1 = Some ((l1, None), w1).
Proof. eexists _, _. evaluate. Qed.

(** ** C1: writing values *)

(** C1 at an ABI v1 output request of line 3, on any kernel.  [SetValue]
    hands the kernel the zero handle data whatever the value, and on the
    kernel's success caches the value; [SetValues] issues the ABI v2 call
    with the bitmap of the values. *)
Theorem SetValue_abi1_at_output_line {K : Type}
    (ioctl : ∀ R : Type, Call R → K → R * K) (w : World K) (value : Z) :
  let l := output_request 1 [3] [0] in
  let q := uapi_SetLineValues (vfd l) uapi.HandleData_zero in
  let q2 := uapi_SetLineValuesV2 (vfd l) (set_range 0 [value] 0) in
  Line_SetValue ioctl value l w
    = Some (match answer ioctl q w with
            | None => (set_values [value] l, None)
            | Some e => (l, Some e)
            end, after ioctl q w) ∧
  Lines_SetValues ioctl [value] l w
    = Some (match answer ioctl q2 w with
            | None => (set_values [value] l, None)
            | Some e => (l, Some e)
            end, after ioctl q2 w).
Proof.
  intros l q q2. unfold answer, after. subst q q2 l. split.
  - unfold Line_SetValue. simpl. rewrite bind_sys. simpl.
    destruct (ioctl _ _ (kern w)) as [[e|] k]; reflexivity.
  - unfold Lines_SetValues. simpl. rewrite bind_sys. simpl.
    destruct (ioctl _ _ (kern w)) as [[e|] k]; reflexivity.
Qed.

(** On the simulated kernel without ABI v2: [SetValue 1] succeeds, the
    cache says 1 and the line reads 0; [SetValues [1]] is refused. *)
Example SetValue_abi1_run :
  ∃ l1 w1,
    Line_SetValue mock_ioctl 1 (output_request 1 [3] [0]) (start mock_v1)
      = Some ((l1, None), w1) ∧
    values l1 = [1] ∧
    trace w1 = [any (uapi_SetLineValues 4 (replicate 64 0))] ∧
    fst <$> Line_Value mock_ioctl l1 w1 = Some (0, None) ∧
    fst <$> Lines_SetValues mock_ioctl [1] (output_request 1 [3] [0])
              (start mock_v1)
      = Some (output_request 1 [3] [0], Some unix.EINVAL).
Proof. eexists _, _. evaluate. Qed.

(** ** C2: reconfiguring a request with edge detection *)

(** The requests [RequestLines] marks as event requests: the ABI version in
    effect is not 2 and an event handler was supplied. *)
Lemma RequestLines_isEvent {K : Type}
    (ioctl : ∀ R : Type, Call R → K → R * K)
    (c c' : Chip) (offs : list Z) (options : list LineOption)
    (ll : Lines) (err : error) (w w' : World K) :
  Chip_RequestLines ioctl offs options c w = Some ((c', (Some ll, err)), w') →
  let lo := effectiveLineOptions c offs options in
  c' = c ∧ err = None ∧ offsets ll = offs ∧ chip ll = c_Name c ∧
  abi ll = lo_abi lo ∧ config ll = lo_Config lo ∧ values ll = lo_values lo ∧
  info ll = None ∧ closed ll = false ∧
  isEvent ll = negb (lo_abi lo =? 2) && negb (bool_decide (lo_eh lo = None)).
Proof.
  intros H. cbv zeta.
  remember (effectiveLineOptions c offs options) as lo eqn:Hlo.
  unfold Chip_RequestLines in H. rewrite <- Hlo in H. clear Hlo.
  destruct (existsb _ offs); [discriminate |]. simpl in H.
  destruct (lo_abi lo =? 2) eqn:Habi.
  - apply bind_Some in H as ([[fd wt] e] & w1 & _ & H).
    destruct e; inversion H; subst; simpl. done.
  - destruct (decide (lo_eh lo = None)) as [Heh|Heh].
    + apply bind_Some in H as ([fd e] & w1 & _ & H).
      destruct e; inversion H; subst; simpl.
      rewrite bool_decide_eq_true_2 by done. done.
    + apply bind_Some in H as ([[fd wt] e] & w1 & _ & H).
      destruct e; inversion H; subst; simpl.
      rewrite bool_decide_eq_false_2 by done. done.
Qed.




(** ** C3: a failed reconfigure changes nothing *)



(** ** C6: reading values into the caller's buffer *)

(** The loop of [Values] writes the slots it visits and no other. *)
Lemma fill_spec (get : nat → option Z) (n i : nat) (vs vs' : list Z) :
  fill get i n vs = Some vs' → (i + n ≤ length vs)%nat →
  length vs' = length vs ∧
  (∀ j, (i ≤ j < i + n)%nat → vs' !! j = get j) ∧
  (∀ j, (j < i ∨ i + n ≤ j)%nat → vs' !! j = vs !! j).
Proof.
  revert i vs. induction n as [|n IH]; intros i vs H Hlen; simpl in H.
  - inversion H; subst. split; [done |]. split; [intros; lia | done].
  - destruct (get i) as [v|] eqn:Hg; [| done].
    apply IH in H as (Hl & Hin & Hout); [| rewrite length_insert; lia].
    rewrite length_insert in Hl. split; [done |]. split.
    + intros j Hj. destruct (decide (j = i)) as [->|Hne].
      * rewrite Hout by lia. rewrite list_lookup_insert_eq by lia. done.
      * apply Hin. lia.
    + intros j Hj. rewrite Hout by lia.
      apply list_lookup_insert_ne. lia.
Qed.

(** The loop of [Values] runs to its end when every slot it visits is
    within the buffer and the source. *)
Lemma fill_total (get : nat → option Z) (n i : nat) (vs : list Z) :
  (∀ j, (i ≤ j < i + n)%nat → is_Some (get j)) →
  is_Some (fill get i n vs).
Proof.
  revert i vs. induction n as [|n IH]; intros i vs Hg; simpl; [eauto |].
  destruct (Hg i) as [v ->]; [lia |]. apply IH. intros j Hj. apply Hg. lia.
Qed.

(** C6. A successful [Values] on a buffer keeps the buffer's length, fills
    its first min(len(buffer), lineCount) entries with the values the
    kernel reported, entry [i] being that of the request's [i]-th line, and
    leaves every entry from index min(len(buffer), lineCount) on as it
    was. *)
Theorem Values_fills_prefix {K : Type}
    (ioctl : ∀ R : Type, Call R → K → R * K)
    (buf buf' : list Z) (l : Lines) (w w' : World K) :
  Lines_Values ioctl buf l w = Some ((buf', None), w') →
  let n := Nat.min (length buf) (length (offsets l)) in
  length buf' = length buf ∧
  (∀ i, (n ≤ i)%nat → buf' !! i = buf !! i) ∧
  (if abi l =? 1
   then ∃ hd, answer ioctl (uapi_GetLineValues (vfd l)) w = inl hd ∧
              ∀ i, (i < n)%nat → buf' !! i = Some (default 0 (hd !! i))
   else ∃ lv, answer ioctl (uapi_GetLineValuesV2 (vfd l)) w = inl lv ∧
              ∀ i, (i < n)%nat →
                   buf' !! i = Some (uapi.LineValues_Get i lv)).
Proof.
  intros H. cbv zeta. unfold answer. unfold Lines_Values in H.
  destruct (closed l); [done |].
  destruct (abi l =? 1); rewrite bind_sys in H;
    destruct (ioctl _ _ (kern w)) as [[x|e] k]; simpl in H; try done;
    apply bind_Some in H as (vs & w1 & Hf & H);
    inversion H; subst; clear H;
    unfold or_panic in Hf;
    destruct (fill _ _ _ _) as [vs'|] eqn:Hfill; [| done | | done];
    inversion Hf; subst; clear Hf;
    apply fill_spec in Hfill as (Hl & Hin & Hout); try lia.
  - split; [done |]. split; [intros i Hi; apply Hout; lia |].
    exists x. split; [done |]. intros i Hi. rewrite Hin by lia.
    unfold HandleData_get. destruct (i <? uapi.HandlesMax)%nat eqn:Hlt.
    + done.
    + exfalso. specialize (Hin i ltac:(lia)).
      unfold HandleData_get in Hin. rewrite Hlt in Hin.
      assert (i < length buf')%nat as Hb by lia.
      apply lookup_lt_is_Some_2 in Hb as [? Hb]. congruence.
  - split; [done |]. split; [intros i Hi; apply Hout; lia |].
    exists x. split; [done |]. intros i Hi. apply Hin. lia.
Qed.

(** Three lines read into a buffer of five on the simulated kernel with
    lines 0 and 2 active: the first three entries are filled, the last two
    stay 7 and 9. *)
Lemma Values_fills_prefix_witness :
  ∃ w1,
    Lines_Values mock_ioctl [5; 5; 5; 7; 9] (output_request 2 [3; 4; 5] [])
      (start (mk_store 5 mock_v2)) = Some (([1; 0; 1; 7; 9], None), w1) ∧
    ∀ i, (3 ≤ i)%nat → [1; 0; 1; 7; 9] !! i = [5; 5; 5; 7; 9] !! i.
Proof.
  eexists. split; [vm_compute; reflexivity |].
  eapply (Values_fills_prefix mock_ioctl [5; 5; 5; 7; 9] [1; 0; 1; 7; 9]
            (output_request 2 [3; 4; 5] []) (start (mk_store 5 mock_v2))).
  vm_compute. reflexivity.
Defined.

(** ** C4: values written are the values read back *)








(** ** C8: the options of a request overlay the chip's defaults *)








(** ** C10: registering an info-change handler *)

(** [NewChip] establishes the invariant and the chip's methods keep it. *)
Lemma chip_wf_invariant {K : Type} (ioctl : ∀ R : Type, Call R → K → R * K) :
  (∀ name options c err (w w' : World K),
     NewChip ioctl name options w = Some ((Some c, err), w') → chip_wf c) ∧
  (∀ offset lich c c' r (w w' : World K), chip_wf c →
     Chip_WatchLineInfo ioctl offset lich c w = Some ((c', r), w') →
     chip_wf c') ∧
  (∀ offset c c' err (w w' : World K), chip_wf c →
     Chip_UnwatchLineInfo ioctl offset c w = Some ((c', err), w') →
     chip_wf c') ∧
  (∀ c c' err (w w' : World K), chip_wf c →
     Chip_Close ioctl c w = Some ((c', err), w') → chip_wf c').
Proof.
  split; [| split; [| split]].
  - intros name options c err w w' H. unfold NewChip, IsChip in H.
    rewrite bind_sys in H. destruct (ioctl _ _ _).1; [done |].
    rewrite bind_sys in H. rewrite bind_sys in H.
    destruct (ioctl _ (os_OpenFile _) _).1 as [fd|e]; [| done].
    rewrite bind_sys in H.
    destruct (ioctl _ (uapi_GetChipInfo _) _).1 as [ci|e].
    + apply bind_Some in H as (c1 & w1 & Hc1 & H).
      assert (c_iw c1 = None ∧ c_ich c1 = None) as [Hiw Hich].
      { destruct (_ =? 0).
        - apply bind_Some in Hc1 as ([inf perr] & w2 & _ & Hc1).
          destruct perr; inversion Hc1; subst; split; reflexivity.
        - inversion Hc1; subst; split; reflexivity. }
      inversion H; subst; clear H. unfold chip_wf.
      destruct (_ =? 0)%nat; simpl; rewrite Hiw, Hich;
        (split; [done | intros [? ?]; done]).
    + rewrite bind_sys in H. done.
  - intros offset lich c c' r w w' [Hwf1 Hwf2] H.
    unfold Chip_WatchLineInfo in H.
    destruct (c_closed c); [by inversion H; subst |].
    apply bind_Some in H as ([c1 err] & w1 & Hc1 & H).
    assert (chip_wf c1) as [Hw1 Hw2].
    { destruct (c_iw c) eqn:Hiw.
      - inversion Hc1; subst. unfold chip_wf. rewrite Hiw. by split.
      - unfold Chip_createInfoWatcher in Hc1. rewrite bind_sys in Hc1.
        destruct (ioctl _ _ _).1; inversion Hc1; subst.
        + split; simpl; [done | eauto].
        + unfold chip_wf. rewrite Hiw. by split. }
    destruct err; [by inversion H; subst |].
    destruct (_ =? 1); rewrite bind_sys in H;
      (destruct (ioctl _ _ _).1; [| by inversion H; subst]);
      apply bind_Some in H as (c2 & w2 & Hreg & H);
      inversion H; subst; clear H;
      unfold register in Hreg;
      apply bind_Some in Hreg as (m & w3 & Hm & Hreg);
      inversion Hreg; subst; clear Hreg;
      (split; simpl;
       [intros Hn; rewrite (Hw1 Hn) in Hm; cbv in Hm; discriminate Hm
       | eauto]).
  - intros offset c c' err w w' [Hwf1 Hwf2] H. unfold Chip_UnwatchLineInfo in H.
    destruct (c_closed c); [by inversion H; subst |].
    rewrite bind_sys in H. inversion H; subst; clear H. split; simpl.
    + intros Hn. rewrite Hwf1 by done. done.
    + intros Hs. destruct (Hwf2 Hs) as [m ->]. simpl. eauto.
  - intros c c' err w w' Hwf H. unfold Chip_Close in H.
    destruct (c_closed c); [by inversion H; subst |].
    apply bind_Some in H as (u & w1 & _ & H). rewrite bind_sys in H.
    inversion H; subst. done.
Qed.



(** ** C9: the ABI version of a chip *)

Lemma grows_ret {K A : Type} (a : A) : grows (mret a : M K A).
Proof. intros w r w' H. inversion H; subst. exists []. by rewrite app_nil_r. Qed.



Lemma grows_or_panic {K A : Type} (o : option A) : grows (or_panic o : M K A).
Proof. destruct o; [apply grows_ret | intros w r w' H; discriminate H]. Qed.









(** The scenario of the spec on the kernel with ABI v2: line 3 of an
    eight-line chip requested as output with initial value 1 reads 1;
    after [SetValue 0] it reads 0; after [Close], [SetValue] fails with the
    closed error. *)
Example output_line_scenario :
  ∃ c w1 l w2 l3 w3 l4 w4,
    NewChip mock_ioctl "gpiochip0" [] (start mock_v2)
      = Some ((Some c, None), w1) ∧
    c_lines c = 8 ∧
    Chip_RequestLine mock_ioctl 3 [AsOutput [1]] c w1
      = Some ((c, (Some l, None)), w2) ∧
    fst <$> Lines_Values mock_ioctl [0] l w2 = Some ([1], None) ∧
    Line_SetValue mock_ioctl 0 l w2 = Some ((l3, None), w3) ∧
    fst <$> Lines_Values mock_ioctl [1] l3 w3 = Some ([0], None) ∧
    baseLine_Close mock_ioctl l3 w3 = Some ((l4, None), w4) ∧
    Line_SetValue mock_ioctl 1 l4 w4 = Some ((l4, Some ErrClosed), w4).
Proof. do 8 eexists. evaluate. Qed.

(** * Further properties of gpiod.go *)

(** ** Lemmas on the runs of the functions *)

Lemma nameToPath_idem (name : string) :
  nameToPath (nameToPath name) = nameToPath name.
Proof.
  assert (String.prefix "/dev/" (nameToPath name) = true) as H.
  { unfold nameToPath. destruct (String.prefix "/dev/" name) eqn:Hp;
      [exact Hp | by destruct name]. }
  unfold nameToPath at 1. rewrite H. reflexivity.
Qed.

Lemma truncate_values_length (n : nat) (lo : LineOptions) :
  (length (lo_values (truncate_values n lo)) ≤ n)%nat.
Proof.
  unfold truncate_values.
  destruct (n <? length (lo_values lo))%nat eqn:Hn; simpl.
  - rewrite length_take. lia.
  - apply Nat.ltb_ge in Hn. exact Hn.
Qed.

(** A range that fits the array is stored in place. *)
Lemma store_range_fits (conv : Z → Z) (vs : list Z) :
  ∀ (from : nat) (a : list Z),
    (from + length vs ≤ length a)%nat →
    store_range conv from vs a
    = Some (take from a ++ (conv <$> vs) ++ drop (from + length vs) a).
Proof.
  induction vs as [|v vs IH]; intros from a Hlen; simpl in *.
  - rewrite Nat.add_0_r, take_drop. reflexivity.
  - unfold store.
    assert ((from <? length a)%nat = true) as -> by (apply Nat.ltb_lt; lia).
    rewrite IH by (rewrite length_insert; lia). f_equal.
    rewrite (take_S_r _ _ (conv v)) by (apply list_lookup_insert_eq; lia).
    rewrite take_insert_ge by lia. rewrite drop_insert_lt by lia.
    rewrite <- app_assoc. simpl.
    replace (S (from + length vs))%nat with (from + S (length vs))%nat by lia.
    reflexivity.
Qed.

Lemma store_range_array (conv : Z → Z) (vs : list Z) (n : nat) :
  (length vs ≤ n)%nat →
  store_range conv 0 vs (replicate n 0)
  = Some ((conv <$> vs) ++ replicate (n - length vs) 0).
Proof.
  intros Hn. rewrite store_range_fits by (rewrite length_replicate; lia).
  simpl. by rewrite drop_replicate.
Qed.

(** A range that runs over the end of the array is a panic. *)
Lemma store_range_overflow (conv : Z → Z) (vs : list Z) :
  ∀ (from : nat) (a : list Z),
    (length a < from + length vs)%nat → vs ≠ [] →
    store_range conv from vs a = None.
Proof.
  induction vs as [|v vs IH]; intros from a Hlen Hne; [done |].
  simpl in *. unfold store.
  destruct (from <? length a)%nat eqn:Hf; [| reflexivity].
  apply Nat.ltb_lt in Hf. apply IH.
  - rewrite length_insert. lia.
  - intros ->. simpl in Hlen. lia.
Qed.

(** The offset check of [RequestLines], as a property of the offsets. *)
Lemma in_range_existsb (lines : Z) (offs : list Z) :
  Forall (λ o, 0 ≤ o < lines) offs →
  existsb (λ o, (o <? 0) || (lines <=? o)) offs = false.
Proof.
  induction 1 as [|o rest Ho _ IH]; [reflexivity |]. simpl. rewrite IH.
  assert ((o <? 0) = false) as -> by lia.
  assert ((lines <=? o) = false) as -> by lia. reflexivity.
Qed.

Lemma out_of_range_existsb (lines : Z) (offs : list Z) :
  existsb (λ o, (o <? 0) || (lines <=? o)) offs = false →
  Forall (λ o, 0 ≤ o < lines) offs.
Proof.
  induction offs as [|o rest IH]; [constructor |]. simpl.
  intros H. apply orb_false_iff in H as [Ho Hrest].
  apply orb_false_iff in Ho as [H1 H2].
  constructor; [lia | by apply IH].
Qed.

Lemma invalid_existsb (lines : Z) (offs : list Z) :
  Exists (λ o, o < 0 ∨ lines ≤ o) offs →
  existsb (λ o, (o <? 0) || (lines <=? o)) offs = true.
Proof.
  induction 1 as [o rest Ho|o rest _ IH]; simpl.
  - assert ((o <? 0) || (lines <=? o) = true) as ->; [| reflexivity].
    apply orb_true_iff. destruct Ho; [left | right]; lia.
  - rewrite IH. apply orb_true_r.
Qed.

(** Computations that return. *)
Lemma returns_ret {K A : Type} (a : A) : returns (mret a : M K A).
Proof. intros w. by eexists. Qed.

Lemma returns_sys {K R : Type} (ioctl : ∀ R : Type, Call R → K → R * K)
    (c : Call R) : returns (sys ioctl c).
Proof. intros w. rewrite sys_run. by eexists. Qed.

Lemma returns_bind {K A B : Type} (m : M K A) (f : A → M K B) :
  returns m → (∀ a, returns (f a)) → returns (m ≫= f).
Proof.
  intros Hm Hf w. destruct (Hm w) as [[a w1] Ha].
  rewrite (bind_run _ _ _ _ _ Ha). apply Hf.
Qed.

Lemma returns_close_all {K : Type} (ioctl : ∀ R : Type, Call R → K → R * K)
    (fds : list Z) : returns (close_all ioctl fds).
Proof.
  induction fds as [|fd rest IH]; simpl; [apply returns_ret |].
  apply returns_bind; [apply returns_sys | intros _; exact IH].
Qed.

Lemma returns_getEventRequest {K : Type}
    (ioctl : ∀ R : Type, Call R → K → R * K) (c : Chip) (lo : LineOptions)
    (offs : list Z) : returns (getEventRequest ioctl c offs lo).
Proof.
  unfold getEventRequest. apply returns_bind.
  - generalize 0%nat as i, 0 as vfd, (∅ : gmap Z Z) as fds.
    induction offs as [|o rest IH]; intros i vfd fds; simpl;
      [apply returns_ret |].
    apply returns_bind; [apply returns_sys |].
    intros [fd|e]; [apply IH | apply returns_ret].
  - intros [[vfd fds]|e]; [| apply returns_ret].
    apply returns_bind; [apply returns_sys |].
    intros [wt|e]; [apply returns_ret |].
    apply returns_bind; [apply returns_close_all | intros _; apply returns_ret].
Qed.

Lemma returns_LineInfo {K : Type} (ioctl : ∀ R : Type, Call R → K → R * K)
    (o : Z) (c : Chip) : returns (Chip_LineInfo ioctl o c).
Proof.
  unfold Chip_LineInfo. destruct (c_closed c); [apply returns_ret |].
  destruct (_ || _); [apply returns_ret |].
  destruct (_ =? 1); (apply returns_bind; [apply returns_sys |]);
    intros [li|e]; apply returns_ret.
Qed.

Lemma returns_NewChip {K : Type} (ioctl : ∀ R : Type, Call R → K → R * K)
    (name : string) (options : list ChipOption) :
  returns (NewChip ioctl name options).
Proof.
  unfold NewChip, IsChip.
  apply returns_bind; [apply returns_sys |]. intros [e|]; [apply returns_ret |].
  apply returns_bind; [apply returns_sys |]. intros pid.
  apply returns_bind; [apply returns_sys |].
  intros [fd|e]; [| apply returns_ret].
  apply returns_bind; [apply returns_sys |]. intros [ci|e].
  - apply returns_bind; [| intros c; apply returns_ret].
    destruct (_ =? 0); [| apply returns_ret].
    apply returns_bind; [apply returns_LineInfo |].
    intros [inf [e|]]; apply returns_ret.
  - apply returns_bind; [apply returns_sys | intros _; apply returns_ret].
Qed.

(** ** Device paths, flags and labels *)

(** X1. [nameToPath] always hands back a path under [/dev/], and applying
    it again changes nothing: the name [NewChip] has made a path of is the
    path [IsChip] checks when it makes a path of it once more. *)
Theorem nameToPath_absolute (name : string) :
  String.prefix "/dev/" (nameToPath name) = true ∧
  nameToPath (nameToPath name) = nameToPath name.
Proof.
  split; [| apply nameToPath_idem].
  unfold nameToPath. destruct (String.prefix "/dev/" name) eqn:Hp;
    [exact Hp | by destruct name].
Qed.

(** X2. Each bit of the ABI v1 flags answers for one aspect of the
    configuration.  In the handle flags: active-low as flagged; output for
    an output line, input for an input line whose direction is flagged (so
    never both); one drive bit at most, one bias bit at most, the
    bias-disable bit only when the bias is flagged.  In the event flags:
    the rising bit for rising or both edges, the falling bit for falling or
    both. *)
Theorem handle_flags_decode (lc : LineConfig) :
  let f := lineConfigToHandleFlags lc in
  uapi.has f uapi.HandleRequestActiveLow
    = uapi.has (Flags lc) uapi.LineFlagV2ActiveLow ∧
  uapi.has f uapi.HandleRequestOutput
    = bool_decide (Direction lc = uapi.LineDirectionOutput) ∧
  uapi.has f uapi.HandleRequestInput
    = bool_decide (Direction lc = uapi.LineDirectionInput)
      && uapi.has (Flags lc) uapi.LineFlagV2Direction ∧
  uapi.has f uapi.HandleRequestOpenDrain
    = bool_decide (Drive lc = uapi.LineDriveOpenDrain) ∧
  uapi.has f uapi.HandleRequestOpenSource
    = bool_decide (Drive lc = uapi.LineDriveOpenSource) ∧
  uapi.has f uapi.HandleRequestPullUp
    = bool_decide (Bias lc = uapi.LineBiasPullUp) ∧
  uapi.has f uapi.HandleRequestPullDown
    = bool_decide (Bias lc = uapi.LineBiasPullDown) ∧
  uapi.has f uapi.HandleRequestBiasDisable
    = bool_decide (Bias lc = uapi.LineBiasDisabled)
      && uapi.has (Flags lc) uapi.LineFlagV2Bias ∧
  uapi.has (lineConfigToEventFlag lc) uapi.EventRequestRisingEdge
    = bool_decide (EdgeDetection lc = uapi.LineEdgeRising
                   ∨ EdgeDetection lc = uapi.LineEdgeBoth) ∧
  uapi.has (lineConfigToEventFlag lc) uapi.EventRequestFallingEdge
    = bool_decide (EdgeDetection lc = uapi.LineEdgeFalling
                   ∨ EdgeDetection lc = uapi.LineEdgeBoth).
Proof.
  unfold lineConfigToHandleFlags, lineConfigToEventFlag.
  destruct lc as [fl d dr b e db]; simpl.
  split; [| split; [| split; [| split; [| split; [| split; [| split;
    [| split; [| split]]]]]]]].
  1-8: destruct (uapi.has fl uapi.LineFlagV2ActiveLow),
         (uapi.has fl uapi.LineFlagV2Direction),
         (uapi.has fl uapi.LineFlagV2Bias), d, dr, b; reflexivity.
  all: destruct e; reflexivity.
Qed.

(** What [lineInfoToLineConfig] reads off the flags of an ABI v1 info. *)
Lemma info_config_fields (li : uapi.LineInfo) :
  let f := uapi.li_Flags li in
  let lc := lineInfoToLineConfig li in
  Direction lc = (if uapi.has f uapi.LineFlagIsOut
                  then uapi.LineDirectionOutput else uapi.LineDirectionInput) ∧
  Drive lc = (if uapi.has f uapi.LineFlagIsOut
              then if uapi.has f uapi.LineFlagOpenDrain
                   then uapi.LineDriveOpenDrain
                   else if uapi.has f uapi.LineFlagOpenSource
                        then uapi.LineDriveOpenSource
                        else uapi.LineDrivePushPull
              else uapi.LineDrivePushPull) ∧
  Bias lc = (if uapi.has f uapi.LineFlagPullUp then uapi.LineBiasPullUp
             else if uapi.has f uapi.LineFlagPullDown
                  then uapi.LineBiasPullDown else uapi.LineBiasDisabled) ∧
  uapi.has (Flags lc) uapi.LineFlagV2ActiveLow
    = uapi.has f uapi.LineFlagActiveLow ∧
  uapi.has (Flags lc) uapi.LineFlagV2Direction = true ∧
  uapi.has (Flags lc) uapi.LineFlagV2Bias
    = uapi.has f uapi.LineFlagPullUp || uapi.has f uapi.LineFlagPullDown
      || uapi.has f uapi.LineFlagBiasDisable.
Proof.
  intros f lc. subst lc. unfold lineInfoToLineConfig. fold f.
  destruct (uapi.has f uapi.LineFlagActiveLow),
    (uapi.has f uapi.LineFlagIsOut),
    (uapi.has f uapi.LineFlagOpenDrain),
    (uapi.has f uapi.LineFlagOpenSource),
    (uapi.has f uapi.LineFlagPullUp),
    (uapi.has f uapi.LineFlagPullDown),
    (uapi.has f uapi.LineFlagBiasDisable);
    vm_compute; repeat split; reflexivity.
Qed.

(** X3. The configuration decoded from an ABI v1 line info, turned into
    handle flags again, asks for the line as the info describes it: the
    same active-low setting and direction (input whenever not output), the
    drive of an output line with open-drain before open-source, and the
    bias with pull-up before pull-down before disabled. *)
Theorem handle_flags_of_line_info (li : uapi.LineInfo) :
  let f := uapi.li_Flags li in
  let h := lineConfigToHandleFlags (lineInfoToLineConfig li) in
  uapi.has h uapi.HandleRequestActiveLow = uapi.has f uapi.LineFlagActiveLow ∧
  uapi.has h uapi.HandleRequestOutput = uapi.has f uapi.LineFlagIsOut ∧
  uapi.has h uapi.HandleRequestInput = negb (uapi.has f uapi.LineFlagIsOut) ∧
  uapi.has h uapi.HandleRequestOpenDrain
    = uapi.has f uapi.LineFlagIsOut && uapi.has f uapi.LineFlagOpenDrain ∧
  uapi.has h uapi.HandleRequestOpenSource
    = uapi.has f uapi.LineFlagIsOut && negb (uapi.has f uapi.LineFlagOpenDrain)
      && uapi.has f uapi.LineFlagOpenSource ∧
  uapi.has h uapi.HandleRequestPullUp = uapi.has f uapi.LineFlagPullUp ∧
  uapi.has h uapi.HandleRequestPullDown
    = negb (uapi.has f uapi.LineFlagPullUp) && uapi.has f uapi.LineFlagPullDown ∧
  uapi.has h uapi.HandleRequestBiasDisable
    = negb (uapi.has f uapi.LineFlagPullUp)
      && negb (uapi.has f uapi.LineFlagPullDown)
      && uapi.has f uapi.LineFlagBiasDisable.
Proof.
  intros f h. subst h.
  pose proof (info_config_fields li) as (Hd & Hdr & Hb & Hal & Hdir & Hbias).
  fold f in Hd, Hdr, Hb, Hal, Hdir, Hbias.
  unfold lineConfigToHandleFlags. rewrite Hd, Hdr, Hb, Hal, Hdir, Hbias.
  destruct (uapi.has f uapi.LineFlagActiveLow),
    (uapi.has f uapi.LineFlagIsOut),
    (uapi.has f uapi.LineFlagOpenDrain),
    (uapi.has f uapi.LineFlagOpenSource),
    (uapi.has f uapi.LineFlagPullUp),
    (uapi.has f uapi.LineFlagPullDown),
    (uapi.has f uapi.LineFlagBiasDisable);
    vm_compute; repeat split; reflexivity.
Qed.

Lemma BytesToString_app_zero (s : list Ascii.ascii) (rest : list Z) :
  Forall (λ a, a ≠ Ascii.zero) s →
  uapi.BytesToString
    (((λ a, Z.of_N (Ascii.N_of_ascii a)) <$> s) ++ 0 :: rest)
  = String.string_of_list_ascii s.
Proof.
  induction 1 as [|a s Ha _ IH]; [reflexivity |]. simpl.
  assert ((Z.of_N (Ascii.N_of_ascii a) =? 0) = false) as ->.
  { apply Z.eqb_neq. intros H0. apply Ha.
    rewrite <- (Ascii.ascii_N_embedding a).
    replace (Ascii.N_of_ascii a) with 0%N by lia. reflexivity. }
  rewrite N2Z.id, Ascii.ascii_N_embedding. f_equal. exact IH.
Qed.

(** X4. The consumer label as a request carries it: an array of the full
    size whose last byte is zero whatever the length of the label, and
    which, for a label without a zero byte, decodes with [BytesToString]
    (as [newLineInfo] decodes the consumer of a line) to the label cut to
    one byte less than the array. *)
Theorem consumer_label_round_trip (n : nat) (s : string) :
  (0 < n)%nat →
  length (copy_consumer n s) = n ∧
  last (copy_consumer n s) = Some 0 ∧
  (Forall (λ a, a ≠ Ascii.zero) (String.list_ascii_of_string s) →
   uapi.BytesToString (copy_consumer n s)
   = String.string_of_list_ascii
       (take (n - 1) (String.list_ascii_of_string s))).
Proof.
  intros Hn. unfold copy_consumer, bytes_of_string. cbv zeta.
  rewrite <- fmap_take.
  set (src := take (n - 1) (String.list_ascii_of_string s)).
  assert (length src ≤ n - 1)%nat as Hlen
    by (subst src; rewrite length_take; lia).
  rewrite length_fmap.
  destruct (n - length src)%nat as [|k] eqn:Hk; [lia |].
  split; [| split].
  - rewrite length_app, length_fmap, length_replicate. lia.
  - replace (S k) with (k + 1)%nat by lia.
    rewrite replicate_add, app_assoc. simpl. apply last_snoc.
  - intros Hs. simpl. apply BytesToString_app_zero.
    subst src. by apply Forall_take.
Qed.

(** The label of the gpiomon command fits the 32 bytes and reads back. *)
Lemma consumer_label_round_trip_witness :
  length (copy_consumer 32 "gpiomon") = 32%nat ∧
  last (copy_consumer 32 "gpiomon") = Some 0 ∧
  uapi.BytesToString (copy_consumer 32 "gpiomon") = "gpiomon".
Proof.
  destruct (consumer_label_round_trip 32 "gpiomon" ltac:(lia))
    as (H1 & H2 & H3).
  split; [exact H1 | split; [exact H2 |]].
  rewrite H3; [reflexivity |].
  repeat constructor; discriminate.
Defined.

(** ** The life of a chip *)

(** A chip [NewChip] hands back is open and has no watcher yet, and it
    comes exactly when no error does. *)
Lemma NewChip_opens {K : Type} (ioctl : ∀ R : Type, Call R → K → R * K)
    (name : string) (options : list ChipOption) (oc : option Chip)
    (err : error) (w w' : World K) :
  NewChip ioctl name options w = Some ((oc, err), w') →
  match oc, err with
  | Some c, None => c_closed c = false ∧ c_iw c = None
  | None, Some _ => True
  | _, _ => False
  end.
Proof.
  intros H. unfold NewChip, IsChip in H.
  rewrite bind_sys in H. destruct (ioctl _ _ _).1; [by inversion H |].
  rewrite bind_sys in H. rewrite bind_sys in H.
  destruct (ioctl _ (os_OpenFile _) _).1 as [fd|e]; [| by inversion H].
  rewrite bind_sys in H.
  destruct (ioctl _ (uapi_GetChipInfo _) _).1 as [ci|e].
  - apply bind_Some in H as (c1 & w1 & Hc1 & H).
    assert (c_closed c1 = false ∧ c_iw c1 = None) as [Hcl Hiw].
    { destruct (_ =? 0).
      - apply bind_Some in Hc1 as ([inf perr] & w2 & _ & Hc1).
        destruct perr; inversion Hc1; subst; split; reflexivity.
      - inversion Hc1; subst; split; reflexivity. }
    inversion H; subst; clear H.
    destruct (_ =? 0)%nat; simpl; by rewrite Hcl, Hiw.
  - rewrite bind_sys in H. by inversion H.
Qed.

(** X5. [NewChip] never panics and hands back a chip or an error, never
    both and never neither.  The chip is open, its label is not empty, it
    has no watcher, and the calls made were the device check, the process
    id, the opening of the path that was checked, the chip info, and at
    most one probing ABI v2 info query of line 0; the file is not closed.  On
    an error either the device check alone was made, or the file could not
    be opened, or the chip info failed and the last call closed the file
    that had been opened. *)
Theorem NewChip_outcome {K : Type}
    (ioctl : ∀ R : Type, Call R → K → R * K)
    (name : string) (options : list ChipOption) (w : World K) :
  let p := nameToPath name in
  let opening := [any (os_IsChip p); any os_Getpid; any (os_OpenFile p)] in
  ∃ r w', NewChip ioctl name options w = Some (r, w') ∧
    match r with
    | (Some c, None) =>
        c_closed c = false ∧ c_Label c ≠ "" ∧
        c_iw c = None ∧ c_ich c = None ∧
        ∃ probe,
          trace w' = trace w ++ opening
                       ++ [any (uapi_GetChipInfo (c_f c))] ++ probe ∧
          (probe = [] ∨ probe = [any (uapi_GetLineInfoV2 (c_f c) 0)])
    | (None, Some e) =>
        trace w' = trace w ++ [any (os_IsChip p)] ∨
        trace w' = trace w ++ opening ∨
        ∃ fd, trace w' = trace w ++ opening
                ++ [any (uapi_GetChipInfo fd); any (file_Close fd)]
    | _ => False
    end.
Proof.
  intros p opening. unfold NewChip, IsChip. rewrite nameToPath_idem. fold p.
  rewrite bind_sys.
  destruct (ioctl (option Error) (os_IsChip p) (kern w)) as [[e|] k1] eqn:H1; simpl.
  { eexists _, _. split; [reflexivity |]. left. reflexivity. }
  rewrite bind_sys. simpl.
  destruct (ioctl _ os_Getpid k1) as [pid k2] eqn:H2; simpl.
  rewrite bind_sys. simpl.
  destruct (ioctl _ (os_OpenFile p) k2) as [[fd|e] k3] eqn:H3; simpl.
  2:{ eexists _, _. split; [reflexivity |]. right. left. simpl.
      subst opening. by rewrite <- !app_assoc. }
  rewrite bind_sys. simpl.
  destruct (ioctl _ (uapi_GetChipInfo fd) k3) as [[ci|e] k4] eqn:H4; simpl.
  2:{ rewrite bind_sys. simpl. eexists _, _. split; [reflexivity |].
      right. right. exists fd. simpl. subst opening.
      by rewrite <- !app_assoc. }
  set (co := fold_left _ options _).
  set (c0 := {| c_f := fd; c_Name := _; c_Label := _; c_lines := _;
                c_options := co; c_iw := None; c_ich := None;
                c_closed := false |}).
  set (w4 := {| kern := k4; trace := _ |}).
  assert (∃ c1 w1 probe,
            (if co_abi co =? 0
             then '(_, err) ← Chip_LineInfo ioctl 0 c0;
                  match err with
                  | None => mret (c_set_abi 2 c0)
                  | Some _ => mret (c_set_abi 1 c0)
                  end
             else mret c0) w4 = Some (c1, w1) ∧
            trace w1 = trace w4 ++ probe ∧
            (probe = [] ∨ probe = [any (uapi_GetLineInfoV2 fd 0)]) ∧
            c_f c1 = fd ∧ c_closed c1 = false ∧ c_iw c1 = None ∧
            c_ich c1 = None)
    as (c1 & w1 & probe & Hrun & Htr & Hprobe & Hf & Hcl & Hiw & Hich).
  { destruct (co_abi co =? 0) eqn:Habi.
    - unfold Chip_LineInfo. simpl.
      destruct (uapi.ci_Lines ci <=? 0) eqn:Hr.
      + eexists _, _, []. split; [rewrite bind_ret; reflexivity |].
        rewrite app_nil_r. repeat split; auto.
      + assert ((co_abi co =? 1) = false) as -> by lia.
        destruct (ioctl _ (uapi_GetLineInfoV2 fd 0) k4) as [[li|e] k5] eqn:H5;
          (eexists _, _, [_]; split;
           [rewrite bind_assoc_run, bind_sys; simpl; rewrite H5; simpl;
            rewrite bind_ret; reflexivity
           | simpl; repeat split; auto]).
    - eexists _, _, []. split; [reflexivity |].
      rewrite app_nil_r. repeat split; auto. }
  unfold error in *. simpl in *.
  erewrite bind_run by exact Hrun. simpl.
  eexists _, _. split; [reflexivity |].
  destruct (String.length (c_Label c1) =? 0)%nat eqn:Hlab; simpl.
  - rewrite Hf. repeat split; auto. exists probe.
    split; [| exact Hprobe]. rewrite Htr. subst w4 opening. simpl.
    by rewrite <- !app_assoc.
  - rewrite Hf. repeat split; auto.
    + intros Hl. rewrite Hl in Hlab. discriminate.
    + exists probe.
      split; [| exact Hprobe]. rewrite Htr. subst w4 opening. simpl.
      by rewrite <- !app_assoc.
Qed.

(** X6. [Chip.Close] on an open chip closes the info watcher if there is
    one, then the file, hands back what closing the file answered, and
    leaves the chip closed whatever that was.  On the closed chip nothing
    reaches the kernel: a second [Close], [LineInfo] and [WatchLineInfo]
    return the closed error, [UnwatchLineInfo] returns nil, and [FindLine]
    returns the closed error, or line-not-found for a chip without lines. *)
Theorem closed_chip_operations {K : Type}
    (ioctl : ∀ R : Type, Call R → K → R * K) (c : Chip) (w : World K) :
  c_closed c = false →
  let c1 := c_set_closed true c in
  let w0 := match c_iw c with
            | Some iw => after ioctl (infoWatcher_close iw) w
            | None => w
            end in
  Chip_Close ioctl c w
    = Some ((c1, answer ioctl (file_Close (c_f c)) w0),
            after ioctl (file_Close (c_f c)) w0) ∧
  (∀ w2, Chip_Close ioctl c1 w2 = Some ((c1, Some ErrClosed), w2)) ∧
  (∀ o w2, Chip_LineInfo ioctl o c1 w2
           = Some ((LineInfo_zero, Some ErrClosed), w2)) ∧
  (∀ o h w2, Chip_WatchLineInfo ioctl o h c1 w2
             = Some ((c1, (LineInfo_zero, Some ErrClosed)), w2)) ∧
  (∀ o w2, Chip_UnwatchLineInfo ioctl o c1 w2 = Some ((c1, None), w2)) ∧
  (∀ name w2, Chip_FindLine ioctl name c1 w2
              = Some ((0, Some (if 0 <? c_lines c then ErrClosed
                                else ErrLineNotFound)), w2)).
Proof.
  intros Hc c1 w0. split; [| split; [| split; [| split; [| split]]]].
  - unfold Chip_Close. rewrite Hc. subst w0 c1. simpl.
    destruct (c_iw c) as [iw|]; simpl.
    + rewrite bind_sys. rewrite bind_sys. reflexivity.
    + rewrite bind_ret. rewrite bind_sys. reflexivity.
  - reflexivity.
  - reflexivity.
  - reflexivity.
  - reflexivity.
  - intros name w2. unfold Chip_FindLine. subst c1. simpl.
    destruct (0 <? c_lines c) eqn:Hl.
    + destruct (Z.to_nat (c_lines c)) eqn:Hn; [lia |]. reflexivity.
    + replace (Z.to_nat (c_lines c)) with 0%nat by lia. reflexivity.
Qed.

(** Closing the eight-line chip: one call, and [FindLine] is then refused. *)
Lemma closed_chip_operations_witness :
  ∃ w1,
    Chip_Close mock_ioctl (chip8 2) (start mock_v2)
      = Some ((c_set_closed true (chip8 2), None), w1) ∧
    trace w1 = [any (file_Close 3)] ∧
    Chip_FindLine mock_ioctl "led" (c_set_closed true (chip8 2)) w1
      = Some ((0, Some ErrClosed), w1).
Proof.
  destruct (closed_chip_operations mock_ioctl (chip8 2) (start mock_v2)
              eq_refl) as (H1 & _ & _ & _ & _ & H6).
  eexists. split; [exact H1 |]. split; [reflexivity |]. apply H6.
Defined.

(** X7. [UnwatchLineInfo] on an open chip issues the unwatch call and hands
    back its answer; whatever the answer, no handler is registered for the
    offset afterwards, the handler of every other offset is as before, and
    the watcher stays. *)
Theorem UnwatchLineInfo_removes {K : Type}
    (ioctl : ∀ R : Type, Call R → K → R * K)
    (c : Chip) (offset : Z) (w : World K) :
  c_closed c = false →
  let q := uapi_UnwatchLineInfo (c_f c) (uint32 offset) in
  ∃ c',
    Chip_UnwatchLineInfo ioctl offset c w
      = Some ((c', answer ioctl q w), after ioctl q w) ∧
    handler_of c' offset = None ∧
    (∀ o, o ≠ offset → handler_of c' o = handler_of c o) ∧
    c_iw c' = c_iw c ∧ c_closed c' = false.
Proof.
  intros Hc q. unfold Chip_UnwatchLineInfo. rewrite Hc.
  eexists. split; [rewrite bind_sys; reflexivity |].
  unfold handler_of. simpl. destruct (c_ich c) as [m|]; simpl.
  - split; [apply lookup_delete_eq |].
    split; [| done]. intros o Ho. by apply lookup_delete_ne.
  - done.
Qed.

(** A handler registered for line 3 is gone after the unwatch. *)
Lemma UnwatchLineInfo_removes_witness :
  ∃ c1 w1 c2 w2,
    Chip_WatchLineInfo mock_ioctl 3 (Some 7%nat) (chip8 2) (start mock_v2)
      = Some ((c1, (newLineInfoV2 (mock_line2 3), None)), w1) ∧
    handler_of c1 3 = Some (Some 7%nat) ∧
    Chip_UnwatchLineInfo mock_ioctl 3 c1 w1 = Some ((c2, None), w2) ∧
    handler_of c2 3 = None.
Proof.
  assert (∃ c1 w1,
            Chip_WatchLineInfo mock_ioctl 3 (Some 7%nat) (chip8 2)
              (start mock_v2)
            = Some ((c1, (newLineInfoV2 (mock_line2 3), None)), w1) ∧
            handler_of c1 3 = Some (Some 7%nat) ∧ c_closed c1 = false)
    as (c1 & w1 & Hw & Hh & Hc)
    by (eexists _, _; split; [vm_compute; reflexivity | split; reflexivity]).
  destruct (UnwatchLineInfo_removes mock_ioctl c1 3 w1 Hc)
    as (c2 & Hu & Hnone & _).
  exists c1, w1, c2, (after mock_ioctl (uapi_UnwatchLineInfo (c_f c1) (uint32 3)) w1).
  split; [exact Hw |]. split; [exact Hh |]. split; [exact Hu | exact Hnone].
Defined.

(** ** The life of a request *)

(** X8. [Close] on an open request returns nil whatever the kernel answers
    to the calls it makes, and leaves the request closed.  The calls are
    the closing of the watcher, if the request has one, and then the
    closing of the request's descriptor, unless the request is an ABI v1
    event request, whose descriptors are the watcher's to close. *)
Theorem Close_releases {K : Type}
    (ioctl : ∀ R : Type, Call R → K → R * K) (l : baseLine) (w : World K) :
  closed l = false →
  let w0 := match watcher l with
            | Some wt => after ioctl (watcher_Close wt) w
            | None => w
            end in
  baseLine_Close ioctl l w
    = Some ((set_closed true l, None),
            if isEvent l then w0 else after ioctl (unix_Close (vfd l)) w0).
Proof.
  intros Hc w0. unfold baseLine_Close. rewrite Hc. subst w0. simpl.
  destruct (watcher l) as [wt|], (isEvent l); simpl;
    rewrite ?bind_assoc_run, ?bind_sys, ?bind_ret;
    rewrite ?bind_assoc_run, ?bind_sys, ?bind_ret; reflexivity.
Qed.

(** Closing an output request of line 3 closes its descriptor, and only it. *)
Lemma Close_releases_witness :
  ∃ w1,
    baseLine_Close mock_ioctl (output_request 2 [3] [1]) (start mock_v2)
      = Some ((set_closed true (output_request 2 [3] [1]), None), w1) ∧
    trace w1 = [any (unix_Close 4)].
Proof.
  eexists. split.
  - apply (Close_releases mock_ioctl (output_request 2 [3] [1])
             (start mock_v2)). reflexivity.
  - reflexivity.
Defined.

(** X9. No operation on a request changes what the request is: after
    [Close], [Reconfigure], [Info] of a line or of lines, [SetValue] and
    [SetValues], whatever they return, the offsets, the descriptor, the
    event mark, the chip name, the ABI version and the watcher are those of
    before, and a request that was closed is still closed. *)
Theorem request_identity_kept {K : Type}
    (ioctl : ∀ R : Type, Call R → K → R * K)
    (l l' : baseLine) (w w' : World K) :
  (∀ e, baseLine_Close ioctl l w = Some ((l', e), w') → same_request l l') ∧
  (∀ options e,
     baseLine_Reconfigure ioctl options l w = Some ((l', e), w') →
     same_request l l') ∧
  (∀ r, Line_Info ioctl l w = Some ((l', r), w') → same_request l l') ∧
  (∀ r, Lines_Info ioctl l w = Some ((l', r), w') → same_request l l') ∧
  (∀ v e, Line_SetValue ioctl v l w = Some ((l', e), w') →
          same_request l l') ∧
  (∀ vs e, Lines_SetValues ioctl vs l w = Some ((l', e), w') →
           same_request l l').
Proof.
  split; [| split; [| split; [| split; [| split]]]].
  - intros e H. unfold baseLine_Close in H. unbind H;
      inversion H; subst; by repeat split.
  - intros options e H. unfold baseLine_Reconfigure in H. unbind H;
      inversion H; subst; by repeat split.
  - intros r H. unfold Line_Info in H. unbind H;
      inversion H; subst; by repeat split.
  - intros r H. unfold Lines_Info in H. unbind H;
      inversion H; subst; by repeat split.
  - intros v e H. unfold Line_SetValue in H. unbind H;
      inversion H; subst; by repeat split.
  - intros vs e H. unfold Lines_SetValues in H. unbind H;
      inversion H; subst; by repeat split.
Qed.

(** A reconfigured request of lines 3 and 5 is still that request. *)
Lemma request_identity_kept_witness :
  ∃ l' w',
    baseLine_Reconfigure mock_ioctl [AsOutput [1; 1]]
      (output_request 2 [3; 5] [0; 0]) (start mock_v2)
      = Some ((l', None), w') ∧
    offsets l' = [3; 5] ∧ vfd l' = 4 ∧ values l' = [1; 1].
Proof.
  assert (∃ l' w',
            baseLine_Reconfigure mock_ioctl [AsOutput [1; 1]]
              (output_request 2 [3; 5] [0; 0]) (start mock_v2)
            = Some ((l', None), w') ∧ values l' = [1; 1])
    as (l' & w' & Hrun & Hv)
    by (eexists _, _; split; [vm_compute; reflexivity | reflexivity]).
  destruct (request_identity_kept mock_ioctl
              (output_request 2 [3; 5] [0; 0]) l' (start mock_v2) w')
    as (_ & H2 & _).
  destruct (H2 _ _ Hrun) as (Ho & Hf & _).
  exists l', w'. split; [exact Hrun |].
  split; [exact Ho | split; [exact Hf | exact Hv]].
Defined.

(** X10. The cached values of a request never outnumber its lines: a
    request [RequestLines] hands back has no more values than offsets, and
    [Reconfigure], [SetValues] and, on a request of at least one line,
    [SetValue] keep it so, whether they succeed or fail. *)
Theorem cached_values_fit {K : Type}
    (ioctl : ∀ R : Type, Call R → K → R * K) (w w' : World K) :
  (∀ offs options c c' ll err,
     Chip_RequestLines ioctl offs options c w = Some ((c', (Some ll, err)), w') →
     values_fit ll) ∧
  (∀ options l l' e,
     values_fit l →
     baseLine_Reconfigure ioctl options l w = Some ((l', e), w') →
     values_fit l') ∧
  (∀ vs l l' e,
     values_fit l →
     Lines_SetValues ioctl vs l w = Some ((l', e), w') → values_fit l') ∧
  (∀ v l l' e,
     values_fit l → offsets l ≠ [] →
     Line_SetValue ioctl v l w = Some ((l', e), w') → values_fit l').
Proof.
  split; [| split; [| split]].
  - intros offs options c c' ll err H.
    apply RequestLines_isEvent in H as (_ & _ & Ho & _ & _ & _ & Hv & _).
    unfold values_fit. rewrite Hv, Ho. apply truncate_values_length.
  - intros options l l' e Hfit H. unfold baseLine_Reconfigure in H.
    unbind H; inversion H; subst; try exact Hfit;
      unfold values_fit; simpl; try exact Hfit;
      apply truncate_values_length.
  - intros vs l l' e Hfit H. unfold Lines_SetValues in H.
    unbind H; inversion H; subst; try exact Hfit; unfold values_fit; simpl.
    + rewrite length_take. lia.
    + match goal with Hn : (_ <? _)%nat = false |- _ =>
        apply Nat.ltb_ge in Hn; exact Hn end.
  - intros v l l' e Hfit Ho H. unfold Line_SetValue in H.
    unbind H; inversion H; subst; try exact Hfit; unfold values_fit; simpl;
      destruct (offsets l); [done | simpl; lia | done | simpl; lia].
Qed.

(** Three values written to two lines: two are cached. *)
Lemma cached_values_fit_witness :
  ∃ l' w',
    Lines_SetValues mock_ioctl [1; 0; 1] (output_request 2 [3; 4] [0; 0])
      (start mock_v2) = Some ((l', None), w') ∧
    values_fit l' ∧ values l' = [1; 0].
Proof.
  assert (∃ l' w',
            Lines_SetValues mock_ioctl [1; 0; 1]
              (output_request 2 [3; 4] [0; 0]) (start mock_v2)
            = Some ((l', None), w') ∧ values l' = [1; 0])
    as (l' & w' & Hrun & Hv)
    by (eexists _, _; split; [vm_compute; reflexivity | reflexivity]).
  exists l', w'. split; [exact Hrun |]. split; [| exact Hv].
  destruct (cached_values_fit mock_ioctl (start mock_v2) w')
    as (_ & _ & H3 & _).
  apply (H3 [1; 0; 1] (output_request 2 [3; 4] [0; 0]) l' None);
    [unfold values_fit; simpl; lia | exact Hrun].
Defined.

(** X11. On a request of at least one line whose ABI version is not 1,
    [SetValue v] is [SetValues] of the one value [v]: the same call to the
    kernel, the same result, the same cached values. *)
Theorem SetValue_is_SetValues {K : Type}
    (ioctl : ∀ R : Type, Call R → K → R * K)
    (v : Z) (l : baseLine) (w : World K) :
  abi l ≠ 1 → offsets l ≠ [] →
  Line_SetValue ioctl v l w = Lines_SetValues ioctl [v] l w.
Proof.
  intros Habi Ho. unfold Line_SetValue, Lines_SetValues.
  assert ((abi l =? 1) = false) as -> by lia.
  destruct (offsets l) as [|o rest]; [done |]. reflexivity.
Qed.

(** At an ABI v2 output request of line 3. *)
Lemma SetValue_is_SetValues_witness :
  Line_SetValue mock_ioctl 1 (output_request 2 [3] [0]) (start mock_v2)
  = Lines_SetValues mock_ioctl [1] (output_request 2 [3] [0]) (start mock_v2).
Proof.
  apply SetValue_is_SetValues; [simpl; lia | discriminate].
Defined.

(** X12. On a request of at least one line, [Values] with a buffer of one
    value is [Value]: the same call to the kernel, and the buffer holds
    the value [Value] returns, or is left as it was when the kernel fails. *)
Theorem Value_is_Values {K : Type}
    (ioctl : ∀ R : Type, Call R → K → R * K)
    (x : Z) (l : baseLine) (w : World K) :
  offsets l ≠ [] →
  Lines_Values ioctl [x] l w
  = match Line_Value ioctl l w with
    | Some ((v, None), w') => Some (([v], None), w')
    | Some ((_, Some e), w') => Some (([x], Some e), w')
    | None => None
    end.
Proof.
  intros Ho. unfold Lines_Values, Line_Value.
  destruct (closed l); [reflexivity |].
  destruct (offsets l) as [|o rest]; [done |]. simpl.
  destruct (abi l =? 1); rewrite !bind_sys;
    destruct (ioctl _ _ (kern w)).1 as [r|e]; reflexivity.
Qed.

(** Line 3 is active in the kernel: the buffer's 7 is replaced by 1. *)
Lemma Value_is_Values_witness :
  Lines_Values mock_ioctl [7] (output_request 2 [3] [1])
    (start (mk_store 1 mock_v2))
  = Some (([1], None),
          after mock_ioctl (uapi_GetLineValuesV2 4)
            (start (mk_store 1 mock_v2))).
Proof.
  rewrite Value_is_Values by discriminate. reflexivity.
Defined.

Lemma Lines_Info_loop_length {K : Type}
    (ioctl : ∀ R : Type, Call R → K → R * K) (c : Chip) (offs : list Z) :
  ∀ infs (w w' : World K),
    Lines_Info_loop ioctl c offs w = Some (inl infs, w') →
    length infs = length offs.
Proof.
  induction offs as [|o rest IH]; intros infs w w' H; simpl in H.
  - by inversion H.
  - apply bind_Some in H as ([inf err] & w1 & _ & H).
    destruct err; [by inversion H |].
    apply bind_Some in H as (r & w2 & Hr & H).
    destruct r as [infs'|e]; inversion H; subst. simpl.
    f_equal. by eapply IH.
Qed.

(** X13. The line info of a request is fetched once.  When [Info] of lines
    returns infos it returns no error, there is one info per offset if
    they were just fetched, and every later [Info] returns the same infos
    without a call to the kernel; likewise for [Info] of a line.  An [Info]
    that returns an error returns no info and leaves the request as it
    was, so that the next call asks again. *)
Theorem Info_cached {K : Type}
    (ioctl : ∀ R : Type, Call R → K → R * K)
    (l l1 : baseLine) (w w1 : World K) :
  (∀ infs err,
     Lines_Info ioctl l w = Some ((l1, (Some infs, err)), w1) →
     err = None ∧
     (info l = None → length infs = length (offsets l)) ∧
     ∀ w2, Lines_Info ioctl l1 w2 = Some ((l1, (Some infs, None)), w2)) ∧
  (∀ r e, Lines_Info ioctl l w = Some ((l1, (r, Some e)), w1) →
          r = None ∧ l1 = l) ∧
  (∀ inf,
     Line_Info ioctl l w = Some ((l1, (inf, None)), w1) →
     ∀ w2, Line_Info ioctl l1 w2 = Some ((l1, (inf, None)), w2)) ∧
  (∀ inf e, Line_Info ioctl l w = Some ((l1, (inf, Some e)), w1) →
            inf = LineInfo_zero ∧ l1 = l).
Proof.
  split; [| split; [| split]].
  - intros infs err H. unfold Lines_Info in H.
    destruct (closed l) eqn:Hcl; [by inversion H |].
    destruct (info l) as [cached|] eqn:Hinfo.
    + inversion H; subst; clear H. split; [done |]. split; [done |].
      intros w2. unfold Lines_Info. by rewrite Hcl, Hinfo.
    + apply bind_Some in H as ([oc e0] & w0 & _ & H).
      destruct e0; [by inversion H |].
      apply bind_Some in H as (c & w2 & _ & H).
      apply bind_Some in H as (r & w3 & Hloop & H).
      apply bind_Some in H as (cc & w4 & _ & H).
      destruct r as [infs'|e]; inversion H; subst; clear H.
      split; [done |]. split.
      * intros _. by eapply Lines_Info_loop_length.
      * intros w5. unfold Lines_Info. simpl. by rewrite Hcl.
  - intros r e H. unfold Lines_Info in H. unbind H; by inversion H.
  - intros inf H. unfold Line_Info in H.
    destruct (closed l) eqn:Hcl; [by inversion H |].
    destruct (info l) as [cached|] eqn:Hinfo.
    + apply bind_Some in H as (i0 & w0 & Hi & H).
      inversion H; subst; clear H.
      intros w2. unfold Line_Info. rewrite Hcl, Hinfo.
      destruct (cached !! 0%nat) as [i1|]; inversion Hi; subst.
      reflexivity.
    + unbind H; inversion H; subst; clear H.
      intros w5. unfold Line_Info. simpl. by rewrite Hcl.
  - intros inf e H. unfold Line_Info in H. unbind H; by inversion H.
Qed.

(** The infos of lines 3 and 5, asked for twice. *)
Lemma Info_cached_witness :
  ∃ l1 w1 infs,
    Lines_Info mock_ioctl (output_request 2 [3; 5] [0; 0]) (start mock_v2)
      = Some ((l1, (Some infs, None)), w1) ∧
    length infs = 2%nat ∧
    Lines_Info mock_ioctl l1 w1 = Some ((l1, (Some infs, None)), w1).
Proof.
  assert (∃ l1 w1 infs,
            Lines_Info mock_ioctl (output_request 2 [3; 5] [0; 0])
              (start mock_v2) = Some ((l1, (Some infs, None)), w1))
    as (l1 & w1 & infs & Hrun)
    by (eexists _, _, _; vm_compute; reflexivity).
  destruct (Info_cached mock_ioctl (output_request 2 [3; 5] [0; 0]) l1
              (start mock_v2) w1) as (H1 & _).
  destruct (H1 infs None Hrun) as (_ & Hlen & Hagain).
  exists l1, w1, infs.
  split; [exact Hrun |]. split; [exact (Hlen eq_refl) | apply Hagain].
Defined.

(** X14. [Info] does not leave its chip open: on an open request without
    cached info, if the chip of the request's name can be opened, whatever
    the line info queries answer, the last call [Info] makes closes the
    file of that chip. *)
Theorem Info_closes_its_chip {K : Type}
    (ioctl : ∀ R : Type, Call R → K → R * K)
    (l : baseLine) (c : Chip) (w w0 : World K) :
  closed l = false → info l = None →
  NewChip ioctl (chip l) [] w = Some ((Some c, None), w0) →
  (∀ r w1, Lines_Info ioctl l w = Some (r, w1) →
           last (trace w1) = Some (any (file_Close (c_f c)))) ∧
  (∀ r w1, Line_Info ioctl l w = Some (r, w1) →
           last (trace w1) = Some (any (file_Close (c_f c)))).
Proof.
  intros Hcl Hinfo Hnew.
  pose proof (NewChip_opens _ _ _ _ _ _ _ Hnew) as [Hopen Hiw].
  assert (∀ A (r : A) (w2 w3 : World K) (k : Chip * error → M K A),
            (∀ x, ∃ a, k x = mret a) →
            (Chip_Close ioctl c ≫= k) w2 = Some (r, w3) →
            last (trace w3) = Some (any (file_Close (c_f c)))) as Hclose.
  { intros A r w2 w3 k Hk H. unfold Chip_Close in H.
    rewrite Hopen in H. simpl in H. rewrite Hiw in H.
    rewrite bind_assoc_run, bind_ret, bind_assoc_run, bind_sys in H.
    rewrite bind_ret in H.
    destruct (Hk (c_set_closed true c,
                  (ioctl error (file_Close (c_f c)) (kern w2)).1))
      as [a Ha].
    unfold error in *. rewrite Ha in H. inversion H; subst. simpl.
    apply last_snoc. }
  split.
  - intros r w1 H. unfold Lines_Info in H. rewrite Hcl, Hinfo in H.
    erewrite bind_run in H by exact Hnew. simpl in H.
    rewrite bind_ret in H.
    apply bind_Some in H as (res & w2 & _ & H).
    eapply Hclose; [| exact H].
    intros x. destruct res; eauto.
  - intros r w1 H. unfold Line_Info in H. rewrite Hcl, Hinfo in H.
    erewrite bind_run in H by exact Hnew. simpl in H.
    rewrite bind_ret in H.
    apply bind_Some in H as (o & w2 & _ & H).
    apply bind_Some in H as ([inf e] & w3 & _ & H).
    eapply Hclose; [| exact H].
    intros x. destruct e; eauto.
Qed.

(** The chip opened for the info of line 3 has descriptor 3. *)
Lemma Info_closes_its_chip_witness :
  ∃ r w1,
    Line_Info mock_ioctl (output_request 2 [3] [0]) (start mock_v2)
      = Some (r, w1) ∧
    last (trace w1) = Some (any (file_Close 3)).
Proof.
  assert (∃ c w0,
            NewChip mock_ioctl "gpiochip0" [] (start mock_v2)
            = Some ((Some c, None), w0) ∧ c_f c = 3)
    as (c & w0 & Hnew & Hf)
    by (eexists _, _; split; [vm_compute; reflexivity | reflexivity]).
  assert (∃ r w1,
            Line_Info mock_ioctl (output_request 2 [3] [0]) (start mock_v2)
            = Some (r, w1)) as (r & w1 & Hrun)
    by (eexists _, _; vm_compute; reflexivity).
  exists r, w1. split; [exact Hrun |].
  destruct (Info_closes_its_chip mock_ioctl (output_request 2 [3] [0]) c
              (start mock_v2) w0 eq_refl eq_refl Hnew) as (_ & H2).
  rewrite <- Hf. exact (H2 r w1 Hrun).
Defined.

(** ** Requesting lines *)

(** A request that is not handed back comes with an error. *)
Lemma RequestLines_none {K : Type}
    (ioctl : ∀ R : Type, Call R → K → R * K)
    (c c' : Chip) (offs : list Z) (options : list LineOption)
    (err : error) (w w' : World K) :
  Chip_RequestLines ioctl offs options c w = Some ((c', (None, err)), w') →
  c' = c ∧ err ≠ None.
Proof.
  intros H. unfold Chip_RequestLines in H.
  destruct (existsb _ offs); [by inversion H |]. simpl in H.
  destruct (_ =? 2).
  - apply bind_Some in H as ([[fd wt] e] & w1 & _ & H).
    destruct e; by inversion H.
  - destruct (decide _) as [Heh|Heh].
    + apply bind_Some in H as ([fd e] & w1 & _ & H).
      destruct e; by inversion H.
    + apply bind_Some in H as ([[fd wt] e] & w1 & _ & H).
      destruct e; by inversion H.
Qed.

(** [RequestLine] copies the request of a collection of one line. *)
Lemma RequestLine_unfold {K : Type}
    (ioctl : ∀ R : Type, Call R → K → R * K)
    (o : Z) (options : list LineOption) (c : Chip) (w : World K) :
  Chip_RequestLine ioctl o options c w
  = Chip_RequestLines ioctl [o] options c w.
Proof.
  unfold Chip_RequestLine.
  destruct (Chip_RequestLines ioctl [o] options c w)
    as [[[c' [oll err]] w']|] eqn:H.
  - rewrite (bind_run _ _ _ _ _ H). simpl.
    destruct oll as [ll|].
    + apply RequestLines_isEvent in H
        as (_ & -> & _ & _ & _ & _ & _ & Hi & Hc & _).
      simpl. rewrite bind_ret. destruct ll. simpl in *. by subst.
    + apply RequestLines_none in H as [_ He].
      destruct err; [reflexivity | done].
  - unfold mbind, M_bind. by rewrite H.
Qed.

(** X15. [RequestLines] refuses an offset that is negative or not below
    the line count of the chip with the invalid-offset error before any
    call reaches the kernel.  It hands back a request exactly when it
    returns no error; the request is open, every offset of it is a line of
    the chip, [Offsets] and [Chip] return the offsets asked for and the
    name of the chip, and the chip is as before.  [RequestLine] of an
    offset is [RequestLines] of that offset alone, and [Offset] of the line
    it hands back is the offset asked for. *)
Theorem RequestLines_outcome {K : Type}
    (ioctl : ∀ R : Type, Call R → K → R * K)
    (offs : list Z) (options : list LineOption) (c : Chip) (w : World K) :
  (Exists (λ o, o < 0 ∨ Chip_Lines c ≤ o) offs →
   Chip_RequestLines ioctl offs options c w
   = Some ((c, (None, Some ErrInvalidOffset)), w)) ∧
  (∀ c' oll err w',
     Chip_RequestLines ioctl offs options c w = Some ((c', (oll, err)), w') →
     c' = c ∧
     match oll, err with
     | Some ll, None =>
         Forall (λ o, 0 ≤ o < Chip_Lines c) offs ∧
         Lines_Offsets ll = offs ∧ baseLine_Chip ll = c_Name c ∧
         closed ll = false
     | None, Some _ => True
     | _, _ => False
     end) ∧
  (∀ o, Chip_RequestLine ioctl o options c w
        = Chip_RequestLines ioctl [o] options c w) ∧
  (∀ o c' l err w',
     Chip_RequestLine ioctl o options c w = Some ((c', (Some l, err)), w') →
     Line_Offset l = Some o ∧ 0 ≤ o < Chip_Lines c).
Proof.
  assert (∀ offs c' ll err w',
            Chip_RequestLines ioctl offs options c w
            = Some ((c', (Some ll, err)), w') →
            c' = c ∧ err = None ∧
            Forall (λ o, 0 ≤ o < c_lines c) offs ∧
            offsets ll = offs ∧ chip ll = c_Name c ∧ closed ll = false)
    as Hsome.
  { intros offs0 c' ll err w' H.
    pose proof (RequestLines_isEvent _ _ _ _ _ _ _ _ _ H)
      as (-> & -> & Ho & Hn & _ & _ & _ & _ & Hc & _).
    repeat split; try done.
    apply out_of_range_existsb. unfold Chip_RequestLines in H.
    destruct (existsb _ offs0); [by inversion H | reflexivity]. }
  unfold Chip_Lines, Lines_Offsets, baseLine_Chip, Line_Offset.
  split; [| split; [| split]].
  - intros Hex. unfold Chip_RequestLines.
    by rewrite (invalid_existsb _ _ Hex).
  - intros c' oll err w' H. destruct oll as [ll|].
    + apply Hsome in H as (-> & -> & ? & ? & ? & ?). done.
    + apply RequestLines_none in H as [-> He]. by destruct err.
  - intros o. apply RequestLine_unfold.
  - intros o c' l err w' H. rewrite RequestLine_unfold in H.
    apply Hsome in H as (_ & _ & Hr & Ho & _).
    rewrite Ho. split; [reflexivity |]. by inversion Hr.
Qed.

(** Line 8 of an eight-line chip is refused; line 3 is requested. *)
Lemma RequestLines_outcome_witness :
  Chip_RequestLines mock_ioctl [3; 8] [] (chip8 2) (start mock_v2)
    = Some ((chip8 2, (None, Some ErrInvalidOffset)), start mock_v2) ∧
  ∃ l w',
    Chip_RequestLine mock_ioctl 3 [] (chip8 2) (start mock_v2)
      = Some ((chip8 2, (Some l, None)), w') ∧
    Line_Offset l = Some 3.
Proof.
  destruct (RequestLines_outcome mock_ioctl [3; 8] [] (chip8 2)
              (start mock_v2)) as (H1 & _).
  split.
  - apply H1. apply Exists_cons_tl, Exists_cons_hd. right. simpl. lia.
  - assert (∃ l w',
              Chip_RequestLine mock_ioctl 3 [] (chip8 2) (start mock_v2)
              = Some ((chip8 2, (Some l, None)), w')) as (l & w' & Hrun)
      by (eexists _, _; vm_compute; reflexivity).
    exists l, w'. split; [exact Hrun |].
    destruct (RequestLines_outcome mock_ioctl [3] [] (chip8 2)
                (start mock_v2)) as (_ & _ & _ & H4).
    exact (proj1 (H4 3 _ l None w' Hrun)).
Defined.

(** X16. How many lines a request can hold.  With every offset a line of
    the chip, [RequestLines] ends in a panic (an index beyond the offsets
    array of the request structure) exactly when more offsets are given
    than the array holds and the request is an ABI v2 request or an ABI v1
    handle request; an ABI v1 event request, which asks for its lines one
    by one, returns for any number of offsets. *)
Theorem RequestLines_capacity {K : Type}
    (ioctl : ∀ R : Type, Call R → K → R * K)
    (offs : list Z) (options : list LineOption) (c : Chip) (w : World K) :
  Forall (λ o, 0 ≤ o < c_lines c) offs →
  let lo := effectiveLineOptions c offs options in
  Chip_RequestLines ioctl offs options c w = None
  ↔ (uapi.LinesMax < length offs)%nat ∧ (lo_abi lo = 2 ∨ lo_eh lo = None).
Proof.
  intros Hr lo. unfold Chip_RequestLines.
  rewrite (in_range_existsb _ _ Hr). fold lo. cbv zeta.
  cbn [abi].
  assert (length (lo_values lo) ≤ length offs)%nat as Hv
    by apply truncate_values_length.
  assert (∀ A (m : M K A) B (f : A → M K B),
            returns m → (∀ a, returns (f a)) → (m ≫= f) w ≠ None) as Hret.
  { intros A m B f Hm Hf Hn.
    destruct (returns_bind m f Hm Hf w) as [r Hr']. congruence. }
  assert (∀ (e : error) (ll : baseLine), returns
            (match e with
             | Some e' => mret (c, (None, Some e'))
             | None => mret (c, (Some ll, None))
             end : M K _)) as Hfin
    by (intros [e|] ll; apply returns_ret).
  destruct (decide (uapi.LinesMax < length offs)%nat) as [Hbig|Hsmall].
  - assert (offs ≠ []) as Hne by (intros ->; simpl in Hbig; lia).
    assert (∀ n, n = uapi.LinesMax →
              store_range uint32 0 offs (replicate n 0) = None) as Hover.
    { intros n ->. apply store_range_overflow; [| exact Hne].
      rewrite length_replicate. lia. }
    destruct (lo_abi lo =? 2) eqn:Habi.
    + unfold getLine. rewrite (Hover uapi.LinesMax eq_refl). simpl.
      split; [intros _; split; [exact Hbig | left; lia] | reflexivity].
    + destruct (decide (lo_eh lo = None)) as [Heh|Heh].
      * unfold getHandleRequest. rewrite (Hover uapi.HandlesMax eq_refl). simpl.
        split; [intros _; split; [exact Hbig | by right] | reflexivity].
      * split; [| intros [_ [?|?]]; [lia | done]].
        intros Hn. exfalso. revert Hn. apply Hret.
        -- apply returns_getEventRequest.
        -- intros [[fd wt] e]. apply Hfin.
  - split; [| intros [? _]; lia]. intros Hn. exfalso. revert Hn.
    assert (∀ n, n = uapi.LinesMax →
              ∃ a, store_range uint32 0 offs (replicate n 0) = Some a)
      as Hoffs.
    { intros n ->. rewrite store_range_fits; [by eexists |].
      rewrite length_replicate. simpl. lia. }
    destruct (lo_abi lo =? 2) eqn:Habi.
    + apply Hret; [| intros [[fd wt] e]; apply Hfin].
      unfold getLine. destruct (Hoffs uapi.LinesMax eq_refl) as [a ->]. simpl.
      apply returns_bind; [apply returns_ret | intros a'].
      apply returns_bind; [apply returns_sys |].
      intros [fd|e]; [| apply returns_ret].
      destruct (decide _); [apply returns_ret |].
      apply returns_bind; [apply returns_sys |].
      intros [wt|e]; [apply returns_ret |].
      apply returns_bind; [apply returns_sys | intros _; apply returns_ret].
    + destruct (decide (lo_eh lo = None)) as [Heh|Heh].
      * apply Hret; [| intros [fd e]; apply Hfin].
        unfold getHandleRequest.
        destruct (Hoffs uapi.HandlesMax eq_refl) as [a ->].
        rewrite store_range_fits
          by (rewrite length_replicate; unfold uapi.HandlesMax, uapi.LinesMax in *;
              lia).
        unfold or_panic.
        apply returns_bind; [apply returns_ret | intros a'].
        apply returns_bind; [apply returns_ret | intros a''].
        apply returns_bind; [apply returns_sys |].
        intros [fd|e]; apply returns_ret.
      * apply Hret; [apply returns_getEventRequest |].
        intros [[fd wt] e]. apply Hfin.
Qed.

(** Line 0 asked for 65 times, and 64 times. *)
Lemma RequestLines_capacity_witness :
  Chip_RequestLines mock_ioctl (replicate 65 0) [] (chip8 2) (start mock_v2)
    = None ∧
  Chip_RequestLines mock_ioctl (replicate 64 0) [] (chip8 2) (start mock_v2)
    ≠ None.
Proof.
  split.
  - apply RequestLines_capacity.
    + apply Forall_replicate. simpl. lia.
    + split; [rewrite length_replicate; unfold uapi.LinesMax; lia
             | left; reflexivity].
  - intros H. apply RequestLines_capacity in H as [H _].
    + rewrite length_replicate in H. unfold uapi.LinesMax in H. lia.
    + apply Forall_replicate. simpl. lia.
Defined.

(** X17. The ABI v2 request in full.  With the ABI version 2 in effect,
    [RequestLines] issues one get-line call: the offsets in the order given
    and the rest of the array zero, the configuration of the options, and
    the bitmap of the values of the options (cut to the number of lines
    once; the second cut in [getLine] finds nothing to cut).  On the
    kernel's error that error is returned.  Without edge detection the
    request has the descriptor the kernel gave and no watcher.  With edge
    detection a watcher is made for that descriptor and the request has
    it; if the watcher cannot be made the descriptor is closed and the
    watcher's error returned. *)
Theorem RequestLines_abi2 {K : Type}
    (ioctl : ∀ R : Type, Call R → K → R * K)
    (offs : list Z) (options : list LineOption) (c : Chip) (w : World K) :
  Forall (λ o, 0 ≤ o < c_lines c) offs →
  (length offs ≤ uapi.LinesMax)%nat →
  let lo := effectiveLineOptions c offs options in
  lo_abi lo = 2 →
  let lr :=
    {| uapi.lr_Offsets :=
         (uint32 <$> offs) ++ replicate (uapi.LinesMax - length offs) 0;
       uapi.lr_Consumer := copy_consumer 32 (lo_consumer lo);
       uapi.lr_Config :=
         toUapiLineConfig (lo_Config lo) (bitmap_of (lo_values lo));
       uapi.lr_Lines := uint32 (Z.of_nat (length offs)) |} in
  let q := uapi_GetLine (c_f c) lr in
  let request (fd : Z) (wt : option Watcher) : baseLine :=
    {| offsets := offs; vfd := fd; isEvent := false; chip := c_Name c;
       abi := 2; config := lo_Config lo; values := lo_values lo;
       info := None; closed := false; watcher := wt |} in
  Chip_RequestLines ioctl offs options c w
  = Some
      (match answer ioctl q w with
       | inr e => ((c, (None, Some e)), after ioctl q w)
       | inl fd =>
         if decide (EdgeDetection (lo_Config lo) = uapi.LineEdgeNone)
         then ((c, (Some (request fd None), None)), after ioctl q w)
         else
           let q2 := newWatcher fd (lo_eh lo) in
           match answer ioctl q2 (after ioctl q w) with
           | inl wt =>
               ((c, (Some (request fd (Some wt)), None)),
                after ioctl q2 (after ioctl q w))
           | inr e =>
               ((c, (None, Some e)),
                after ioctl (unix_Close fd)
                  (after ioctl q2 (after ioctl q w)))
           end
       end).
Proof.
  intros Hr Hlen lo Habi lr q request.
  unfold Chip_RequestLines. rewrite (in_range_existsb _ _ Hr). fold lo.
  cbv zeta. cbn [abi]. rewrite Habi. simpl (2 =? 2).
  assert (length (lo_values lo) ≤ length offs)%nat as Hv
    by apply truncate_values_length.
  unfold getLine. rewrite (store_range_array uint32 offs _ Hlen).
  assert ((length offs <? length (lo_values lo))%nat = false) as ->
    by (apply Nat.ltb_ge; exact Hv).
  unfold or_panic. rewrite bind_assoc_run, bind_ret.
  rewrite bind_assoc_run, bind_sys.
  fold (bitmap_of (lo_values lo)). fold lr. fold q.
  unfold answer, after.
  destruct (ioctl _ q (kern w)) as [[fd|e] k1]; simpl;
    [| reflexivity].
  destruct (decide _) as [He|He]; [reflexivity |].
  rewrite bind_assoc_run, bind_sys. simpl.
  destruct (ioctl _ (newWatcher fd (lo_eh lo)) k1) as [[wt|e] k2]; simpl;
    [reflexivity |].
  rewrite bind_assoc_run, bind_sys. reflexivity.
Qed.

(** Lines 3 and 5 as outputs, both active: no watcher, bits 0 and 1 set. *)
Lemma RequestLines_abi2_witness :
  ∃ l w',
    Chip_RequestLines mock_ioctl [3; 5] [AsOutput [1; 1]] (chip8 2)
      (start mock_v2) = Some ((chip8 2, (Some l, None)), w') ∧
    vfd l = 3 ∧ watcher l = None ∧ values l = [1; 1] ∧
    mk_bits (kern w') = 3.
Proof.
  eexists _, _. split.
  - rewrite RequestLines_abi2;
      [reflexivity
      | repeat constructor; simpl; lia
      | unfold uapi.LinesMax; simpl; lia
      | reflexivity].
  - repeat split.
Defined.

(** X18. The ABI v1 handle request in full.  Without an event handler and
    with an ABI version other than 2 in effect, [RequestLines] issues one
    handle request: the offsets in the order given, the handle flags of
    the configuration, and as default values the low byte of each value of
    the options (a value of 256 is sent as 0), the rest of both arrays
    zero.  The request handed back caches the values as the options gave
    them and has no watcher. *)
Theorem RequestLines_abi1_handle {K : Type}
    (ioctl : ∀ R : Type, Call R → K → R * K)
    (offs : list Z) (options : list LineOption) (c : Chip) (w : World K) :
  Forall (λ o, 0 ≤ o < c_lines c) offs →
  (length offs ≤ uapi.HandlesMax)%nat →
  let lo := effectiveLineOptions c offs options in
  lo_abi lo ≠ 2 → lo_eh lo = None →
  let hr :=
    {| uapi.hr_Offsets :=
         (uint32 <$> offs) ++ replicate (uapi.HandlesMax - length offs) 0;
       uapi.hr_Flags := lineConfigToHandleFlags (lo_Config lo);
       uapi.hr_DefaultValues :=
         (uint8 <$> lo_values lo)
           ++ replicate (uapi.HandlesMax - length (lo_values lo)) 0;
       uapi.hr_Consumer := copy_consumer 32 (lo_consumer lo);
       uapi.hr_Lines := uint32 (Z.of_nat (length offs)) |} in
  let q := uapi_GetLineHandle (c_f c) hr in
  Chip_RequestLines ioctl offs options c w
  = Some
      (match answer ioctl q w with
       | inr e => (c, (None, Some e))
       | inl fd =>
           (c, (Some {| offsets := offs; vfd := fd; isEvent := false;
                        chip := c_Name c; abi := lo_abi lo;
                        config := lo_Config lo; values := lo_values lo;
                        info := None; closed := false; watcher := None |},
                None))
       end, after ioctl q w).
Proof.
  intros Hr Hlen lo Habi Heh hr q.
  unfold Chip_RequestLines. rewrite (in_range_existsb _ _ Hr). fold lo.
  cbv zeta. cbn [abi].
  assert ((lo_abi lo =? 2) = false) as -> by lia.
  destruct (decide (lo_eh lo = None)) as [_|Hn]; [| done].
  assert (length (lo_values lo) ≤ length offs)%nat as Hv
    by apply truncate_values_length.
  unfold getHandleRequest. rewrite (store_range_array uint32 offs _ Hlen).
  rewrite (store_range_array uint8 (lo_values lo)) by lia.
  unfold or_panic. rewrite bind_assoc_run, bind_ret.
  rewrite bind_assoc_run, bind_ret.
  rewrite bind_assoc_run, bind_sys. fold hr. fold q.
  unfold answer, after.
  destruct (ioctl _ q (kern w)) as [[fd|e] k1]; reflexivity.
Qed.

(** Values 256 and 1 for lines 3 and 5: cached as given, only line 5 set. *)
Lemma RequestLines_abi1_handle_witness :
  ∃ l w',
    Chip_RequestLines mock_ioctl [3; 5] [AsOutput [256; 1]] (chip8 1)
      (start mock_v1) = Some ((chip8 1, (Some l, None)), w') ∧
    values l = [256; 1] ∧ mk_bits (kern w') = 2.
Proof.
  eexists _, _. split.
  - rewrite RequestLines_abi1_handle;
      [reflexivity
      | repeat constructor; simpl; lia
      | unfold uapi.HandlesMax; simpl; lia
      | simpl; lia
      | reflexivity].
  - split; reflexivity.
Defined.




(** ** Finding lines and chips *)



(** X20. [Chip.FindLine] finds the first line of the name.  On a chip
    whose line infos can all be read, with [names o] the name of line [o]:
    if no line has the name the result is the line-not-found error, and
    if line [o] has the name and no line before it has, the result is
    [o]. *)
Theorem FindLine_first_match {K : Type}
    (ioctl : ∀ R : Type, Call R → K → R * K)
    (name : string) (c : Chip) (names : Z → string) :
  (∀ o (w : World K), 0 ≤ o < c_lines c →
     ∃ inf w1, Chip_LineInfo ioctl o c w = Some ((inf, None), w1)
               ∧ Name inf = names o) →
  ∀ w : World K,
    ((∀ o, 0 ≤ o < c_lines c → names o ≠ name) →
     ∃ w', Chip_FindLine ioctl name c w
           = Some ((0, Some ErrLineNotFound), w')) ∧
    (∀ o, 0 ≤ o < c_lines c → names o = name →
          (∀ o', 0 ≤ o' < o → names o' ≠ name) →
          ∃ w', Chip_FindLine ioctl name c w = Some ((o, None), w')).
Proof.
  intros Hinfo w.
  assert (∀ n o0 (w : World K),
            0 ≤ o0 → o0 + Z.of_nat n ≤ c_lines c →
            (∀ o', o0 ≤ o' < o0 + Z.of_nat n → names o' ≠ name) →
            ∃ w', Chip_FindLine_loop ioctl name c o0 n w
                  = Some ((0, Some ErrLineNotFound), w')) as Hnone.
  { induction n as [|n IH]; intros o0 w0 H0 Hn Hneq; simpl.
    - by eexists.
    - destruct (Hinfo o0 w0 ltac:(lia)) as (inf & w1 & Hq & Hname).
      rewrite (bind_run _ _ _ _ _ Hq).
      rewrite bool_decide_eq_false_2
        by (rewrite Hname; apply Hneq; lia).
      apply IH; [lia | lia |]. intros o' Ho'. apply Hneq. lia. }
  assert (∀ n o0 o (w : World K),
            0 ≤ o0 ≤ o → o < o0 + Z.of_nat n → o0 + Z.of_nat n ≤ c_lines c →
            names o = name →
            (∀ o', o0 ≤ o' < o → names o' ≠ name) →
            ∃ w', Chip_FindLine_loop ioctl name c o0 n w
                  = Some ((o, None), w')) as Hsome.
  { induction n as [|n IH]; intros o0 o w0 H0 Ho Hn Hname Hneq; simpl.
    - lia.
    - destruct (Hinfo o0 w0 ltac:(lia)) as (inf & w1 & Hq & Hnm).
      rewrite (bind_run _ _ _ _ _ Hq).
      destruct (decide (o0 = o)) as [->|Hlt].
      + rewrite bool_decide_eq_true_2 by (by rewrite Hnm). by eexists.
      + rewrite bool_decide_eq_false_2
          by (rewrite Hnm; apply Hneq; lia).
        apply IH; [lia | lia | lia | exact Hname |].
        intros o' Ho'. apply Hneq. lia. }
  unfold Chip_FindLine. split.
  - intros Hneq. destruct (decide (0 ≤ c_lines c)) as [Hl|Hl].
    + apply Hnone; [lia | lia |]. intros o' Ho'. apply Hneq. lia.
    + replace (Z.to_nat (c_lines c)) with 0%nat by lia. by eexists.
  - intros o Ho Hname Hneq. apply Hsome; try lia; done.
Qed.

(** The lines of the simulated chip have no name: the empty name is found
    at line 0, and no line is called led. *)
Lemma FindLine_first_match_witness :
  (∃ w', Chip_FindLine mock_ioctl "" (chip8 1) (start mock_v1)
         = Some ((0, None), w')) ∧
  (∃ w', Chip_FindLine mock_ioctl "led" (chip8 1) (start mock_v1)
         = Some ((0, Some ErrLineNotFound), w')).
Proof.
  assert (∀ o (w : World MockK), 0 ≤ o < c_lines (chip8 1) →
            ∃ inf w1, Chip_LineInfo mock_ioctl o (chip8 1) w
                      = Some ((inf, None), w1)
                      ∧ Name inf = (λ _ : Z, "") o) as Hinfo.
  { intros o w Ho. unfold Chip_LineInfo. simpl in *.
    assert ((o <? 0) || (8 <=? o) = false) as ->
      by (apply orb_false_iff; split; lia).
    rewrite bind_sys. simpl.
    eexists _, _. split; reflexivity. }
  destruct (FindLine_first_match mock_ioctl "" (chip8 1) _ Hinfo
              (start mock_v1)) as (_ & Hfound).
  destruct (FindLine_first_match mock_ioctl "led" (chip8 1) _ Hinfo
              (start mock_v1)) as (Hnone & _).
  split.
  - apply (Hfound 0); [simpl; lia | reflexivity | intros o' Ho'; lia].
  - apply Hnone. intros o _. discriminate.
Defined.



(** The path of a name that starts with gpiochip. *)
Lemma gpiochip_path (name : string) :
  String.prefix "gpiochip" name = true → nameToPath name = "/dev/" +:+ name.
Proof.
  intros H. unfold nameToPath.
  destruct name as [|a s]; [discriminate |].
  destruct a as [[] [] [] [] [] [] [] []];
    try discriminate H; reflexivity.
Qed.

(** The loop asks [IsChip] of every name and keeps the accepted ones. *)
Lemma Chips_loop_run {K : Type} (ioctl : ∀ R : Type, Call R → K → R * K)
    (names : list string) :
  Forall (λ n, String.prefix "gpiochip" n = true) names →
  ∀ (cc : list string) (w : World K),
    ∃ acc w', Chips_loop ioctl names cc w = Some (cc ++ acc, w') ∧
      sublist acc names ∧
      trace w' = trace w
                   ++ ((λ n, any (os_IsChip ("/dev/" +:+ n))) <$> names).
Proof.
  induction 1 as [|name rest Hn _ IH]; intros cc w; simpl.
  - exists [], w. rewrite !app_nil_r. done.
  - unfold IsChip. rewrite (gpiochip_path _ Hn). rewrite bind_sys.
    destruct (ioctl _ _ (kern w)).1 as [e|].
    + destruct (IH cc {| kern := (ioctl (option Error)
                                    (os_IsChip ("/dev/" +:+ name))
                                    (kern w)).2;
                         trace := trace w
                                    ++ [any (os_IsChip ("/dev/" +:+ name))] |})
        as (acc & w' & Hrun & Hsub & Htr).
      exists acc, w'. split; [exact Hrun |].
      split; [by apply sublist_cons |].
      rewrite Htr. simpl. by rewrite <- app_assoc.
    + destruct (IH (cc ++ [name])
                  {| kern := (ioctl (option Error)
                                (os_IsChip ("/dev/" +:+ name)) (kern w)).2;
                     trace := trace w
                                ++ [any (os_IsChip ("/dev/" +:+ name))] |})
        as (acc & w' & Hrun & Hsub & Htr).
      exists (name :: acc), w'. split.
      * rewrite <- app_assoc in Hrun. exact Hrun.
      * split; [by apply sublist_skip |].
        rewrite Htr. simpl. by rewrite <- app_assoc.
Qed.

(** X22. [Chips] never panics.  It asks [IsChip], in the order of the
    listing, of exactly the entries of [/dev] whose name starts with
    [gpiochip], each as the path of that name under [/dev/], and hands
    back some of those names in that order; when [/dev] cannot be read it
    asks nothing and hands back none. *)
Theorem Chips_lists_accepted {K : Type}
    (ioctl : ∀ R : Type, Call R → K → R * K)
    (ioutil_ReadDir : string → K → list string + Error) (w : World K) :
  let names := match ioutil_ReadDir "/dev" (kern w) with
               | inl ee => List.filter (String.prefix "gpiochip") ee
               | inr _ => []
               end in
  ∃ cc w', Chips ioctl ioutil_ReadDir w = Some (cc, w') ∧
    sublist cc names ∧
    trace w' = trace w
                 ++ ((λ n, any (os_IsChip ("/dev/" +:+ n))) <$> names).
Proof.
  intros names. unfold Chips, chipNames.
  assert (Forall (λ n, String.prefix "gpiochip" n = true) names) as Hn.
  { subst names. destruct (ioutil_ReadDir _ _) as [ee|e]; [| constructor].
    apply Forall_forall. intros n Hin. apply list_elem_of_In in Hin.
    by apply List.filter_In in Hin as [_ ?]. }
  destruct (Chips_loop_run ioctl names Hn [] w)
    as (acc & w' & Hrun & Hsub & Htr).
  exists acc, w'. split; [| done].
  unfold mbind, M_bind. subst names.
  destruct (ioutil_ReadDir _ _) as [ee|e]; exact Hrun.
Qed.



(** ** Operations that cannot panic *)

(** A bind returns when its second part returns on what the first can
    hand over. *)
Lemma returns_bind_run {K A B : Type} (m : M K A) (f : A → M K B) :
  returns m →
  (∀ (w : World K) a w1, m w = Some (a, w1) → is_Some (f a w1)) →
  returns (m ≫= f).
Proof.
  intros Hm Hf w. destruct (Hm w) as [[a w1] Ha].
  rewrite (bind_run _ _ _ _ _ Ha). by eapply Hf.
Qed.

Lemma returns_Lines_Info_loop {K : Type}
    (ioctl : ∀ R : Type, Call R → K → R * K) (c : Chip) (offs : list Z) :
  returns (Lines_Info_loop ioctl c offs).
Proof.
  induction offs as [|o rest IH]; simpl; [apply returns_ret |].
  apply returns_bind; [apply returns_LineInfo |].
  intros [inf [e|]]; [apply returns_ret |].
  apply returns_bind; [exact IH |]. intros [infs|e]; apply returns_ret.
Qed.

Lemma returns_Chip_Close {K : Type}
    (ioctl : ∀ R : Type, Call R → K → R * K) (c : Chip) :
  returns (Chip_Close ioctl c).
Proof.
  unfold Chip_Close. destruct (c_closed c); [apply returns_ret |].
  apply returns_bind.
  - simpl. destruct (c_iw c); [apply returns_sys | apply returns_ret].
  - intros _. apply returns_bind; [apply returns_sys |].
    intros e. apply returns_ret.
Qed.

(** X24. No operation on a request of one to sixty-four lines ends in a
    panic.  If cached info, when there is any, is not empty, then [Close],
    [Reconfigure] with any options, [Info] of a line and of lines, [Value],
    [Values] with any buffer, [SetValue] and [SetValues] with any values
    all return, whatever the kernel answers. *)
Theorem request_operations_return {K : Type}
    (ioctl : ∀ R : Type, Call R → K → R * K) (l : baseLine) :
  (0 < length (offsets l) ≤ uapi.HandlesMax)%nat →
  (∀ infs, info l = Some infs → infs ≠ []) →
  returns (baseLine_Close ioctl l) ∧
  (∀ options, returns (baseLine_Reconfigure ioctl options l)) ∧
  returns (Line_Info ioctl l) ∧
  returns (Lines_Info ioctl l) ∧
  returns (Line_Value ioctl l) ∧
  (∀ buf, returns (Lines_Values ioctl buf l)) ∧
  (∀ v, returns (Line_SetValue ioctl v l)) ∧
  (∀ vs, returns (Lines_SetValues ioctl vs l)).
Proof.
  intros [Hpos Hmax] Hinfo.
  split; [| split; [| split; [| split; [| split; [| split; [| split]]]]]].
  - unfold baseLine_Close. destruct (closed l); [apply returns_ret |].
    apply returns_bind.
    + simpl. destruct (watcher l); [| apply returns_ret].
      apply returns_bind; [apply returns_sys | intros _; apply returns_ret].
    + intros _. apply returns_bind; [| intros _; apply returns_ret].
      simpl. destruct (isEvent l); [apply returns_ret |].
      apply returns_bind; [apply returns_sys | intros _; apply returns_ret].
  - intros options. unfold baseLine_Reconfigure.
    destruct (isEvent l); [apply returns_ret |].
    destruct (_ =? 0)%nat; [apply returns_ret |].
    destruct (closed l); [apply returns_ret |]. cbv zeta.
    destruct (abi l =? 1).
    + rewrite store_range_array.
      2:{ pose proof (truncate_values_length (length (offsets l))
                        (applyLineOptions options
                           {| lo_consumer := ""; lo_Config := config l;
                              lo_values := values l; lo_abi := 0;
                              lo_eh := None |})) as Hv.
          unfold reconfigOptions. lia. }
      unfold or_panic. apply returns_bind; [apply returns_ret | intros dv].
      apply returns_bind; [apply returns_sys |].
      intros [e|]; apply returns_ret.
    + apply returns_bind; [apply returns_sys |].
      intros [e|]; apply returns_ret.
  - unfold Line_Info. destruct (closed l); [apply returns_ret |].
    destruct (info l) as [infs|] eqn:Hi.
    + destruct infs as [|inf rest]; [by destruct (Hinfo [] eq_refl) |].
      simpl. apply returns_bind; [apply returns_ret |].
      intros i. apply returns_ret.
    + apply returns_bind_run; [apply returns_NewChip |].
      intros w [oc err] w1 Hnew. apply NewChip_opens in Hnew.
      destruct oc as [c|], err as [e|]; try done;
        try (by apply returns_ret).
      destruct (offsets l) as [|o rest]; [simpl in Hpos; lia |]. simpl.
      apply returns_bind; [apply returns_ret | intros c'].
      apply returns_bind; [apply returns_ret | intros o'].
      apply returns_bind; [apply returns_LineInfo | intros [inf err]].
      apply returns_bind; [apply returns_Chip_Close | intros _].
      destruct err; apply returns_ret.
  - unfold Lines_Info. destruct (closed l); [apply returns_ret |].
    destruct (info l) as [infs|]; [apply returns_ret |].
    apply returns_bind_run; [apply returns_NewChip |].
    intros w [oc err] w1 Hnew. apply NewChip_opens in Hnew.
    destruct oc as [c|], err as [e|]; try done;
      try (by apply returns_ret).
    simpl. apply returns_bind; [apply returns_ret | intros c'].
    apply returns_bind; [apply returns_Lines_Info_loop | intros r].
    apply returns_bind; [apply returns_Chip_Close | intros _].
    destruct r; apply returns_ret.
  - unfold Line_Value. destruct (closed l); [apply returns_ret |].
    destruct (abi l =? 1); (apply returns_bind; [apply returns_sys |]);
      intros [r|e]; apply returns_ret.
  - intros buf. unfold Lines_Values.
    destruct (closed l); [apply returns_ret |]. cbv zeta.
    destruct (abi l =? 1); (apply returns_bind; [apply returns_sys |]);
      intros [r|e]; try apply returns_ret.
    + destruct (fill_total (λ i, HandleData_get i r) 
                  (Nat.min (length buf) (length (offsets l))) 0 buf)
        as [vs' Hvs].
      { intros j Hj. unfold HandleData_get.
        assert ((j <? uapi.HandlesMax)%nat = true) as ->
          by (apply Nat.ltb_lt; lia).
        by eexists. }
      rewrite Hvs. simpl.
      apply returns_bind; [apply returns_ret | intros v; apply returns_ret].
    + destruct (fill_total (λ i, Some (uapi.LineValues_Get i r))
                  (Nat.min (length buf) (length (offsets l))) 0 buf)
        as [vs' Hvs]; [intros j _; by eexists |].
      rewrite Hvs. simpl.
      apply returns_bind; [apply returns_ret | intros v; apply returns_ret].
  - intros v. unfold Line_SetValue.
    destruct (negb _); [apply returns_ret |].
    destruct (closed l); [apply returns_ret |].
    destruct (abi l =? 1); (apply returns_bind; [apply returns_sys |]);
      intros [e|]; apply returns_ret.
  - intros vs. unfold Lines_SetValues.
    destruct (negb _); [apply returns_ret |].
    destruct (closed l); [apply returns_ret |].
    apply returns_bind; [apply returns_sys |].
    intros [e|]; apply returns_ret.
Qed.

(** On an ABI v1 request of lines 3 and 5. *)
Lemma request_operations_return_witness :
  is_Some (Lines_Values mock_ioctl [0; 0] (output_request 1 [3; 5] [1; 1])
             (start mock_v1)) ∧
  is_Some (Line_Info mock_ioctl (output_request 1 [3; 5] [1; 1])
             (start mock_v1)).
Proof.
  destruct (request_operations_return mock_ioctl
              (output_request 1 [3; 5] [1; 1])) as (_ & _ & H3 & _ & _ & H6 & _).
  - simpl. unfold uapi.HandlesMax. lia.
  - intros infs Hi. discriminate Hi.
  - split; [apply H6 | apply H3].
Defined.

(** ** What the search leaves open *)

Lemma closes_after_info_nil : closes_after_info [].
Proof. intros i a fd Hi. by rewrite lookup_nil in Hi. Qed.

Lemma closes_after_info_app (xs ys : list AnyCall) :
  closes_after_info xs → closes_after_info ys → closes_after_info (xs ++ ys).
Proof.
  intros Hx Hy i a fd Hi Hc.
  destruct (decide (i < length xs)%nat) as [Hlt|Hge].
  - rewrite lookup_app_l in Hi by exact Hlt.
    destruct (Hx i a fd Hi Hc) as (j & b & -> & Hj & Hb).
    exists j, b. split; [reflexivity |]. split; [| exact Hb].
    rewrite lookup_app_l by lia. exact Hj.
  - rewrite lookup_app_r in Hi by lia.
    destruct (Hy _ a fd Hi Hc) as (j & b & Hij & Hj & Hb).
    exists (length xs + j)%nat, b. split; [lia |]. split; [| exact Hb].
    rewrite lookup_app_r by lia.
    replace (length xs + j - length xs)%nat with j by lia. exact Hj.
Qed.

Lemma closes_after_info_quiet (calls : list AnyCall) :
  Forall (λ a, closes_file a = None) calls → closes_after_info calls.
Proof.
  intros Hq i a fd Hi Hc.
  rewrite Forall_lookup in Hq. rewrite (Hq i a Hi) in Hc. discriminate.
Qed.

(** The calls of a line-info query and of a search close no file. *)
Lemma LineInfo_calls {K : Type} (ioctl : ∀ R : Type, Call R → K → R * K)
    (o : Z) (c : Chip) (r : LineInfo * error) (w w' : World K) :
  Chip_LineInfo ioctl o c w = Some (r, w') →
  ∃ calls, trace w' = trace w ++ calls
           ∧ Forall (λ a, closes_file a = None) calls.
Proof.
  unfold Chip_LineInfo. intros H.
  destruct (c_closed c);
    [inversion H; subst; exists []; by rewrite app_nil_r |].
  destruct (_ || _);
    [inversion H; subst; exists []; by rewrite app_nil_r |].
  assert (∀ a : AnyCall, closes_file a = None →
            ∃ calls, trace w ++ [a] = trace w ++ calls
                     ∧ Forall (λ a, closes_file a = None) calls) as Hone.
  { intros a Ha. exists [a]. split; [reflexivity |].
    apply List.Forall_cons; [exact Ha | apply List.Forall_nil]. }
  destruct (_ =? 1); rewrite bind_sys in H;
    destruct (ioctl _ _ (kern w)).1; inversion H; subst; simpl;
    by apply Hone.
Qed.

Lemma FindLine_loop_calls {K : Type}
    (ioctl : ∀ R : Type, Call R → K → R * K) (name : string) (c : Chip)
    (n : nat) :
  ∀ (o : Z) (r : Z * error) (w w' : World K),
    Chip_FindLine_loop ioctl name c o n w = Some (r, w') →
    ∃ calls, trace w' = trace w ++ calls
             ∧ Forall (λ a, closes_file a = None) calls.
Proof.
  induction n as [|n IH]; intros o r w w' H; simpl in H.
  - inversion H; subst. exists []. by rewrite app_nil_r.
  - apply bind_Some in H as ([inf err] & w1 & Hq & H).
    apply LineInfo_calls in Hq as (c1 & Ht1 & Hq1).
    destruct err; [inversion H; subst; by exists c1 |].
    destruct (bool_decide _); [inversion H; subst; by exists c1 |].
    apply IH in H as (c2 & Ht2 & Hq2).
    exists (c1 ++ c2). split; [| by apply Forall_app].
    rewrite Ht2, Ht1. by rewrite <- app_assoc.
Qed.

(** [NewChip] closes only the file whose chip info failed. *)
Lemma NewChip_calls {K : Type} (ioctl : ∀ R : Type, Call R → K → R * K)
    (name : string) (options : list ChipOption)
    (r : option Chip * error) (w w' : World K) :
  NewChip ioctl name options w = Some (r, w') →
  ∃ calls, trace w' = trace w ++ calls ∧ closes_after_info calls.
Proof.
  intros H. unfold NewChip, IsChip in H. rewrite bind_sys in H.
  destruct (ioctl _ _ _).1.
  { inversion H; subst; simpl. eexists [_]. split; [reflexivity |].
    apply closes_after_info_quiet. quiet. }
  rewrite bind_sys in H. rewrite bind_sys in H.
  destruct (ioctl _ (os_OpenFile _) _).1 as [fd|e].
  2:{ inversion H; subst; simpl. eexists [_; _; _].
      split; [by rewrite <- !app_assoc |].
      apply closes_after_info_quiet. quiet. }
  rewrite bind_sys in H.
  destruct (ioctl _ (uapi_GetChipInfo _) _).1 as [ci|e].
  - apply bind_Some in H as (c1 & w1 & Hc1 & H).
    inversion H; subst; clear H.
    assert (∃ calls, trace w' = trace w ++ calls
                     ∧ Forall (λ a, closes_file a = None) calls)
      as (calls & Htr & Hq).
    { destruct (_ =? 0).
      - apply bind_Some in Hc1 as ([inf perr] & w2 & Hq & Hc1).
        apply LineInfo_calls in Hq as (c2 & Ht2 & Hq2). simpl in Ht2.
        destruct perr; inversion Hc1; subst;
          (eexists ([_; _; _; _] ++ c2); split;
           [rewrite Ht2; by rewrite <- !app_assoc
           | apply Forall_app; split; [quiet | exact Hq2]]).
      - inversion Hc1; subst. simpl. eexists [_; _; _; _].
        split; [by rewrite <- !app_assoc | quiet]. }
    exists calls. split; [exact Htr | by apply closes_after_info_quiet].
  - rewrite bind_sys in H. inversion H; subst; simpl.
    eexists [_; _; _; _; _]. split; [by rewrite <- !app_assoc |].
    intros i a fd' Hi Hc.
    destruct i as [|[|[|[|[|i]]]]]; simpl in Hi; inversion Hi; subst;
      simpl in Hc; try discriminate Hc.
    inversion Hc; subst. eexists 3%nat, _.
    split; [reflexivity |]. split; reflexivity.
Qed.

(** X25. [findLine] closes none of the chips it opens.  Among the calls
    of a search, a file is closed only by the call right after the
    chip-info query of that file, which is [NewChip] giving up a chip it
    could not read; a chip that was opened and searched without the line
    being found is passed over open. *)
Theorem findLine_closes_no_chip {K : Type}
    (ioctl : ∀ R : Type, Call R → K → R * K)
    (ioutil_ReadDir : string → K → list string + Error)
    (lname : string) (r : option Chip * Z * error) (w w' : World K) :
  findLine ioctl ioutil_ReadDir lname w = Some (r, w') →
  ∃ calls, trace w' = trace w ++ calls ∧ closes_after_info calls.
Proof.
  unfold findLine, chipNames. intros H.
  apply bind_Some in H as (names & w0 & Hn & H).
  assert (w0 = w) as -> by (destruct (ioutil_ReadDir _ _); by inversion Hn).
  clear Hn. revert w H.
  induction names as [|name rest IH]; intros w H; simpl in H.
  - inversion H; subst. exists []. split; [by rewrite app_nil_r |].
    apply closes_after_info_nil.
  - apply bind_Some in H as ([oc err] & w1 & Hnew & H).
    apply NewChip_calls in Hnew as (c1 & Ht1 & Hc1).
    assert (∀ w2 c2, trace w2 = trace w1 ++ c2 →
              Forall (λ a, closes_file a = None) c2 →
              findLine_loop ioctl lname rest w2 = Some (r, w') →
              ∃ calls, trace w' = trace w ++ calls ∧ closes_after_info calls)
      as Hnext.
    { intros w2 c2 Ht2 Hq2 Hrest. apply IH in Hrest as (c3 & Ht3 & Hc3).
      exists (c1 ++ c2 ++ c3). split.
      - rewrite Ht3, Ht2, Ht1. by rewrite <- !app_assoc.
      - apply closes_after_info_app; [exact Hc1 |].
        apply closes_after_info_app; [| exact Hc3].
        by apply closes_after_info_quiet. }
    destruct err as [e|].
    { apply (Hnext w1 []); [by rewrite app_nil_r | apply List.Forall_nil | exact H]. }
    apply bind_Some in H as (c & w2 & Hc & H).
    assert (w2 = w1) as -> by (destruct oc; by inversion Hc).
    apply bind_Some in H as ([o err] & w3 & Hf & H).
    apply FindLine_loop_calls in Hf as (c2 & Ht2 & Hq2).
    destruct err as [e|]; [by apply (Hnext w3 c2) |].
    inversion H; subst. exists (c1 ++ c2). split.
    + rewrite Ht2, Ht1. by rewrite <- app_assoc.
    + apply closes_after_info_app; [exact Hc1 |].
      by apply closes_after_info_quiet.
Qed.

(** The search for a line called led opens the chip (its chip info is the
    fourth call) and closes no file. *)
Lemma findLine_closes_no_chip_witness :
  ∃ w',
    findLine mock_ioctl mock_dev "led" (start mock_v2)
      = Some ((None, 0, Some ErrLineNotFound), w') ∧
    closes_after_info (trace w') ∧
    asks_chip_info <$> trace w' !! 3%nat = Some (Some 3) ∧
    Forall (λ a, closes_file a = None) (trace w').
Proof.
  assert (∃ w',
            findLine mock_ioctl mock_dev "led" (start mock_v2)
            = Some ((None, 0, Some ErrLineNotFound), w'))
    as (w' & Hrun) by (eexists; vm_compute; reflexivity).
  exists w'. split; [exact Hrun |].
  destruct (findLine_closes_no_chip mock_ioctl mock_dev "led" _ _ _ Hrun)
    as (calls & Htr & Hc).
  assert (trace w' = calls) as Hcalls by exact Htr.
  split; [rewrite Hcalls; exact Hc |].
  split.
  - revert Hrun. vm_compute. intros Hrun. inversion Hrun. reflexivity.
  - revert Hrun. vm_compute. intros Hrun. inversion Hrun.
    quiet.
Defined.
